(** * HealthcareCacheManager: a two-tier cache with expiry and eviction

    Shallow embedding of
    [GynAid-mobile/src/utils/HealthcareCacheManager.ts].

    Modelling decisions, all of them visible in the definitions below:

    - A JavaScript [number] holding a time in milliseconds is an integer
      [Z]; the two non-numbers the code can produce in a numeric field are
      kept apart: [NaN] (from [now + undefined]) and [null] (what
      [JSON.stringify] writes for [NaN]).
    - A field that TypeScript declares but JavaScript may leave
      [undefined] is an [option]; a property of the override object is
      missing, [undefined] or a value, which the spread tells apart.
    - [memoryCache] is a JavaScript [Map]: an association list in
      insertion order (the order [Array.from(map.entries())] yields).
    - [AsyncStorage] is a finite map from key to stored text.  A stored
      text is either what [JSON.stringify] produced for an entry, or any
      other text.
    - An [async] method is a computation in a state-and-rejection monad:
      a rejected promise is [Rejected], and the state changes made before
      the rejection stay.  Calls do not interleave.
    - [Date.now()] is read from the environment of the call, which also
      says which [AsyncStorage] operations fail during that call; the
      clock has one reading for the whole call.
    - [console.log] and the cleanup timer handle are left out. *)

From Stdlib Require Import ZArith String List Bool Lia Sorted Permutation.
From stdpp Require Import gmap strings.
Import ListNotations.

Local Open Scope string_scope.
Local Open Scope list_scope.
Local Open Scope Z_scope.

(** ** Values *)

(** ['low' | 'normal' | 'high'] *)
Inductive Priority : Type := p_low | p_normal | p_high.

(** ['critical' | 'normal' | 'non-critical'] *)
Inductive DataType : Type := t_critical | t_normal | t_non_critical.

(** The content of a numeric field. *)
Inductive jsnumber : Type :=
| JNum (z : Z)
| JNaN
| JNull.

(** [a + b] where [b] may be [undefined]: [number + undefined] is [NaN]. *)
Definition js_add (a : Z) (b : option Z) : jsnumber :=
  match b with
  | Some m => JNum (a + m)
  | None => JNaN
  end.

(** [a > b]: every comparison with [NaN] is false, [null] converts to 0. *)
Definition js_gt (a : Z) (b : jsnumber) : bool :=
  match b with
  | JNum z => z <? a
  | JNaN => false
  | JNull => 0 <? a
  end.

(** [JSON.stringify] writes [NaN] as [null]; [JSON.parse] reads it back
    as [null]. *)
Definition json_number (x : jsnumber) : jsnumber :=
  match x with
  | JNaN => JNull
  | _ => x
  end.

(** [interface CacheConfig], every field present. *)
Record CacheConfig : Type := mkConfig {
  maxAge : Z;
  cfg_priority : Priority;
  cfg_type : DataType
}.

(** A property of an object literal passed as [Partial<CacheConfig>]: not
    there, there with the value [undefined], or there with a value. *)
Inductive property (A : Type) : Type :=
| Absent
| Undefined
| Present (a : A).
Arguments Absent {A}.
Arguments Undefined {A}.
Arguments Present {A} a.

(** [Partial<CacheConfig>], the type of [customConfig]. *)
Record PartialConfig : Type := mkPartial {
  opt_maxAge : property Z;
  opt_priority : property Priority;
  opt_type : property DataType
}.

(** The object [{ ...cacheConfigs[key], ...customConfig }] as [set] reads
    it: a property that is missing or [undefined] reads as [undefined]. *)
Record Spread : Type := mkSpread {
  spread_maxAge : option Z;
  spread_priority : option Priority;
  spread_type : option DataType
}.

(** One property of [{ ...base, ...custom }]: a property that [custom]
    has, also with the value [undefined], replaces the one of [base]. *)
Definition spread_property {A} (b : option A) (c : property A) : option A :=
  match c with
  | Absent => b
  | Undefined => None
  | Present a => Some a
  end.

(** [{ ...base, ...custom }]; a missing object spreads to nothing. *)
Definition spread (base : option CacheConfig) (custom : option PartialConfig)
  : Spread :=
  let b := match base with
           | Some c => mkSpread (Some (maxAge c)) (Some (cfg_priority c))
                                (Some (cfg_type c))
           | None => mkSpread None None None
           end in
  match custom with
  | Some c => mkSpread (spread_property (spread_maxAge b) (opt_maxAge c))
                       (spread_property (spread_priority b) (opt_priority c))
                       (spread_property (spread_type b) (opt_type c))
  | None => b
  end.

Definition maxMemoryCacheSize : Z := 50.
Definition storagePrefix : string := "gynaid_cache_".

(** The table [cacheConfigs]. *)
Definition cacheConfigs_table : list (string * CacheConfig) :=
  [ ("userProfile", mkConfig (24 * 60 * 60 * 1000) p_high t_critical);
    ("medicalHistory", mkConfig (12 * 60 * 60 * 1000) p_high t_critical);
    ("emergencyContacts", mkConfig (6 * 60 * 60 * 1000) p_high t_critical);
    ("appointments", mkConfig (2 * 60 * 60 * 1000) p_normal t_normal);
    ("providers", mkConfig (4 * 60 * 60 * 1000) p_normal t_normal);
    ("healthTips", mkConfig (6 * 60 * 60 * 1000) p_normal t_normal);
    ("notifications", mkConfig (30 * 60 * 1000) p_low t_non_critical);
    ("chatHistory", mkConfig (2 * 60 * 60 * 1000) p_low t_non_critical);
    ("uiPreferences", mkConfig (60 * 60 * 1000) p_low t_non_critical) ].

Fixpoint assoc {A} (k : string) (l : list (string * A)) : option A :=
  match l with
  | [] => None
  | (k', a) :: l' => if String.eqb k' k then Some a else assoc k l'
  end.

(** [this.cacheConfigs[key]] *)
Definition cacheConfigs (key : string) : option CacheConfig :=
  assoc key cacheConfigs_table.

(** [key.startsWith(p)] *)
Definition startsWith (key p : string) : bool := String.prefix p key.

(** ** Rejections *)

Inductive StorageOp : Type :=
| OpGetItem | OpSetItem | OpRemoveItem | OpGetAllKeys | OpMultiRemove.

(** The only exceptions the class can meet: an [AsyncStorage] promise
    that rejects, or [JSON.stringify] / [JSON.parse] throwing. *)
Inductive Error : Type :=
| StorageError (op : StorageOp)
| JsonError.

Inductive Result (A : Type) : Type :=
| Ok (a : A)
| Rejected (e : Error).
Arguments Ok {A} a.
Arguments Rejected {A} e.

(** What a call sees of the outside: the clock and the failing storage
    operations. *)
Record Env : Type := mkEnv {
  now : Z;
  fails : StorageOp -> bool
}.

Definition no_faults : StorageOp -> bool := fun _ => false.
Definition all_faults : StorageOp -> bool := fun _ => true.

Section Cache.

(** The payload type [T] and what [JSON.parse (JSON.stringify d)] makes of
    a payload [d]: [None] when [JSON.stringify] throws on it. *)
Variable T : Type.
Variable json_data : T -> option T.

(** [interface CacheEntry<T>] *)
Record CacheEntry : Type := mkEntry {
  data : T;
  timestamp : Z;
  expiresAt : jsnumber;
  priority : option Priority;
  type : option DataType
}.

(** A text held by [AsyncStorage]: [Json e] is a text that [JSON.parse]
    turns into the entry [e]; [Raw s] is any text from which
    [getFromStorage] obtains no object. *)
Inductive Stored : Type :=
| Json (e : CacheEntry)
| Raw (s : string).

(** [JSON.parse (JSON.stringify entry)]; an [undefined] property is
    omitted and read back as [undefined]. *)
Definition json_entry (e : CacheEntry) : option CacheEntry :=
  match json_data (data e) with
  | Some d => Some (mkEntry d (timestamp e) (json_number (expiresAt e))
                            (priority e) (type e))
  | None => None
  end.

Record World : Type := mkWorld {
  memoryCache : list (string * CacheEntry);
  storage : gmap string Stored
}.

(** ** The monad of [async] methods *)

Definition M (A : Type) : Type := World -> Result A * World.

Definition ret {A} (a : A) : M A := fun w => (Ok a, w).

Definition bind {A B} (m : M A) (k : A -> M B) : M B :=
  fun w => match m w with
           | (Ok a, w') => k a w'
           | (Rejected e, w') => (Rejected e, w')
           end.

Definition throw {A} (e : Error) : M A := fun w => (Rejected e, w).

(** [try { m } catch (error) { h error }] *)
Definition try_catch {A} (m : M A) (h : Error -> M A) : M A :=
  fun w => match m w with
           | (Ok a, w') => (Ok a, w')
           | (Rejected e, w') => h e w'
           end.

Notation "x <- m ;; k" := (bind m (fun x => k))
  (at level 90, m at level 60, right associativity).
Notation "m ;;; k" := (bind m (fun _ => k))
  (at level 90, right associativity).

Definition get_memory : M (list (string * CacheEntry)) :=
  fun w => (Ok (memoryCache w), w).

Definition put_memory (m : list (string * CacheEntry)) : M unit :=
  fun w => (Ok tt, mkWorld m (storage w)).

(** [for (const x of l) { f x }] *)
Fixpoint for_each {A} (l : list A) (f : A -> M unit) : M unit :=
  match l with
  | [] => ret tt
  | x :: l' => f x ;;; for_each l' f
  end.

(** ** [Map<string, CacheEntry>] *)

Definition Map_get (k : string) (m : list (string * CacheEntry))
  : option CacheEntry := assoc k m.

(** [map.set(k, e)]: an existing key keeps its place, a new key goes to
    the end. *)
Fixpoint Map_set (k : string) (e : CacheEntry) (m : list (string * CacheEntry))
  : list (string * CacheEntry) :=
  match m with
  | [] => [(k, e)]
  | (k', e') :: m' =>
      if String.eqb k' k then (k, e) :: m' else (k', e') :: Map_set k e m'
  end.

Definition Map_delete (k : string) (m : list (string * CacheEntry))
  : list (string * CacheEntry) :=
  List.filter (fun p => negb (String.eqb (fst p) k)) m.

Definition Map_size (m : list (string * CacheEntry)) : Z :=
  Z.of_nat (length m).

(** ** [AsyncStorage] *)

Definition getItem (env : Env) (k : string) : M (option Stored) :=
  fun w => if fails env OpGetItem then (Rejected (StorageError OpGetItem), w)
           else (Ok (storage w !! k), w).

Definition setItem (env : Env) (k : string) (v : Stored) : M unit :=
  fun w => if fails env OpSetItem then (Rejected (StorageError OpSetItem), w)
           else (Ok tt, mkWorld (memoryCache w) (<[k := v]> (storage w))).

Definition removeItem (env : Env) (k : string) : M unit :=
  fun w => if fails env OpRemoveItem
           then (Rejected (StorageError OpRemoveItem), w)
           else (Ok tt, mkWorld (memoryCache w) (delete k (storage w))).

Definition getAllKeys (env : Env) : M (list string) :=
  fun w => if fails env OpGetAllKeys
           then (Rejected (StorageError OpGetAllKeys), w)
           else (Ok (map fst (map_to_list (storage w))), w).

Definition multiRemove (env : Env) (ks : list string) : M unit :=
  fun w => if fails env OpMultiRemove
           then (Rejected (StorageError OpMultiRemove), w)
           else (Ok tt, mkWorld (memoryCache w) (foldr delete (storage w) ks)).

(** ** The class *)

(** [isExpired]: [Date.now() > entry.expiresAt] *)
Definition isExpired (env : Env) (entry : CacheEntry) : bool :=
  js_gt (now env) (expiresAt entry).

(** [setToStorage] *)
Definition setToStorage (env : Env) (key : string) (entry : CacheEntry)
  : M unit :=
  try_catch
    (match json_entry entry with
     | Some e => setItem env (String.append storagePrefix key) (Json e)
     | None => throw JsonError
     end)
    (fun _ => ret tt).

(** [getFromStorage] *)
Definition getFromStorage (env : Env) (key : string)
  : M (option CacheEntry) :=
  try_catch
    (stored <- getItem env (String.append storagePrefix key) ;;
     match stored with
     | Some (Json e) => ret (Some e)
     | Some (Raw _) => ret None
     | None => ret None
     end)
    (fun _ => ret None).

Definition priorityOrder (p : Priority) : Z :=
  match p with p_low => 0 | p_normal => 1 | p_high => 2 end.

Definition typeOrder (t : DataType) : Z :=
  match t with t_non_critical => 0 | t_normal => 1 | t_critical => 2 end.

(** [priorityOrder[a.priority] + typeOrder[a.type]]; [None] is [NaN],
    the sum when a property is [undefined]. *)
Definition score (e : CacheEntry) : option Z :=
  match priority e, type e with
  | Some p, Some t => Some (priorityOrder p + typeOrder t)
  | _, _ => None
  end.

(** The comparator [aScore - bScore]; [None] is [NaN]. *)
Definition comparefn (a b : string * CacheEntry) : option Z :=
  match score (snd a), score (snd b) with
  | Some x, Some y => Some (x - y)
  | _, _ => None
  end.

(** What [Array.prototype.sort] makes of the comparator's result: [NaN]
    counts as [+0]. *)
Definition sortCompare (a b : string * CacheEntry) : Z :=
  match comparefn a b with
  | Some v => v
  | None => 0
  end.

(** [entries.sort(...)]: the sort is stable, so on a consistent
    comparator its result is the one of a stable insertion sort.  (With
    [NaN] scores among different scores the comparator is inconsistent
    and the engine's order is its own.) *)
Fixpoint sort_insert (x : string * CacheEntry) (l : list (string * CacheEntry))
  : list (string * CacheEntry) :=
  match l with
  | [] => [x]
  | y :: l' => if sortCompare x y <=? 0 then x :: l else y :: sort_insert x l'
  end.

Definition sort (l : list (string * CacheEntry)) : list (string * CacheEntry) :=
  foldr sort_insert [] l.

(** [Math.max(1, Math.floor(this.maxMemoryCacheSize * 0.2))]; the product
    [50 * 0.2] is exactly 10 in double arithmetic. *)
Definition toRemove : Z := Z.max 1 (maxMemoryCacheSize * 2 / 10).

(** The entries the loop of [evictFromMemoryCache] visits:
    [entries[i]] for [i < toRemove && i < entries.length]. *)
Definition victims (m : list (string * CacheEntry)) : list (string * CacheEntry) :=
  firstn (Z.to_nat toRemove) (sort m).

Definition delete_all (ks : list string) (m : list (string * CacheEntry))
  : list (string * CacheEntry) :=
  fold_left (fun acc k => Map_delete k acc) ks m.

(** [evictFromMemoryCache] as a function of the map. *)
Definition evicted (m : list (string * CacheEntry)) : list (string * CacheEntry) :=
  delete_all (map fst (victims m)) m.

Definition evictFromMemoryCache : M unit :=
  m <- get_memory ;; put_memory (evicted m).

(** The entry [set] builds. *)
Definition new_entry (env : Env) (key : string) (d : T)
           (customConfig : option PartialConfig) : CacheEntry :=
  let config := spread (cacheConfigs key) customConfig in
  mkEntry d (now env) (js_add (now env) (spread_maxAge config))
          (spread_priority config) (spread_type config).

(** [set] *)
Definition set (env : Env) (key : string) (d : T)
           (customConfig : option PartialConfig) : M unit :=
  let entry := new_entry env key d customConfig in
  m <- get_memory ;;
  put_memory (Map_set key entry m) ;;;
  m1 <- get_memory ;;
  (if maxMemoryCacheSize <? Map_size m1 then evictFromMemoryCache else ret tt) ;;;
  setToStorage env key entry.

(** [remove] *)
Definition remove (env : Env) (key : string) : M unit :=
  m <- get_memory ;;
  put_memory (Map_delete key m) ;;;
  removeItem env (String.append storagePrefix key).

(** The second half of [get], after the memory cache gave nothing
    fresh: [memoryEntry] is what the memory cache held for the key. *)
Definition get_from_storage_tier (env : Env) (key : string)
           (memoryEntry : option CacheEntry) : M (option T) :=
  storageEntry <- getFromStorage env key ;;
  match storageEntry with
  | Some se =>
      if negb (isExpired env se)
      then (m <- get_memory ;;
            put_memory (Map_set key se m) ;;;
            ret (Some (data se)))
      else remove env key ;;; ret None
  | None =>
      match memoryEntry with
      | Some _ => remove env key ;;; ret None
      | None => ret None
      end
  end.

(** [get] *)
Definition get (env : Env) (key : string) : M (option T) :=
  m <- get_memory ;;
  let memoryEntry := Map_get key m in
  match memoryEntry with
  | Some e =>
      if negb (isExpired env e) then ret (Some (data e))
      else get_from_storage_tier env key memoryEntry
  | None => get_from_storage_tier env key memoryEntry
  end.

(** [clear]: the two [AsyncStorage] calls are not inside a [try]. *)
Definition clear (env : Env) : M unit :=
  put_memory [] ;;;
  keys <- getAllKeys env ;;
  let cacheKeys := List.filter (fun key => startsWith key storagePrefix) keys in
  multiRemove env cacheKeys.

Definition criticalKeys : list string :=
  ["userProfile"; "medicalHistory"; "emergencyContacts"].

(** [{ ...data, priority: 'high', type: 'critical' }] *)
Definition as_critical (d : CacheEntry) : CacheEntry :=
  mkEntry (data d) (timestamp d) (expiresAt d) (Some p_high) (Some t_critical).

(** The body of the loop of [warmupCriticalCache]. *)
Definition warmup_key (env : Env) (key : string) : M unit :=
  try_catch
    (d <- getFromStorage env key ;;
     match d with
     | Some e => m <- get_memory ;; put_memory (Map_set key (as_critical e) m)
     | None => ret tt
     end)
    (fun _ => ret tt).

(** [warmupCriticalCache] *)
Definition warmupCriticalCache (env : Env) : M unit :=
  for_each criticalKeys (warmup_key env).

(** [performCleanup] *)
Definition performCleanup (env : Env) : M unit :=
  m <- get_memory ;;
  let expiredKeys :=
    map fst (List.filter (fun p => isExpired env (snd p)) m) in
  for_each expiredKeys (fun key =>
    m' <- get_memory ;;
    put_memory (Map_delete key m') ;;;
    removeItem env (String.append storagePrefix key)).

(** [getCacheStats().memorySize] *)
Definition memorySize (w : World) : Z := Map_size (memoryCache w).

(** [new HealthcareCacheManager()] over a storage left by earlier runs:
    an empty memory cache, then the warmup. *)
Definition construct (env : Env) (st : gmap string Stored) : World :=
  snd (warmupCriticalCache env (mkWorld [] st)).

(** ** Sequences of calls *)

Inductive Call : Type :=
| CallSet (key : string) (d : T) (customConfig : option PartialConfig)
| CallGet (key : string)
| CallRemove (key : string)
| CallClear
| CallCleanupTick.

(** The world a call leaves, whatever it returned. *)
Definition perform (env : Env) (c : Call) (w : World) : World :=
  match c with
  | CallSet key d cc => snd (set env key d cc w)
  | CallGet key => snd (get env key w)
  | CallRemove key => snd (remove env key w)
  | CallClear => snd (clear env w)
  | CallCleanupTick => snd (performCleanup env w)
  end.

Definition run (calls : list (Env * Call)) (w : World) : World :=
  fold_left (fun acc ec => perform (fst ec) (snd ec) acc) calls w.

(** The call is a [get]. *)
Definition is_get (c : Call) : bool :=
  match c with
  | CallGet _ => true
  | _ => false
  end.

(** A [Map] has no key twice. *)
Definition Map_wf (m : list (string * CacheEntry)) : Prop :=
  NoDup (map fst m).

(** Every entry has a priority and a type, as [interface CacheEntry]
    declares. *)
Definition typed (p : string * CacheEntry) : Prop :=
  score (snd p) <> None.

(** ** Descriptions used in the statements *)

(** Deleting the keys [ks] keeps the entries under the other keys. *)
Definition kept (ks : list string) (p : string * CacheEntry) : bool :=
  negb (existsb (String.eqb (fst p)) ks).

(** The score of an entry that has a priority and a type, as an
    integer. *)
Definition rank (p : string * CacheEntry) : Z :=
  match score (snd p) with
  | Some s => s
  | None => 0
  end.

(** The memory cache [set] leaves. *)
Definition memory_after_set (env : Env) (key : string) (d : T)
           (cc : option PartialConfig) (m : list (string * CacheEntry))
  : list (string * CacheEntry) :=
  let m1 := Map_set key (new_entry env key d cc) m in
  if maxMemoryCacheSize <? Map_size m1 then evicted m1 else m1.

(** The storage [set] leaves. *)
Definition storage_after_set (env : Env) (key : string) (d : T)
           (cc : option PartialConfig) (st : gmap string Stored)
  : gmap string Stored :=
  match json_entry (new_entry env key d cc) with
  | Some e =>
      if fails env OpSetItem then st
      else <[String.append storagePrefix key := Json e]> st
  | None => st
  end.

(** What [getFromStorage] returns. *)
Definition read_storage (env : Env) (key : string) (w : World)
  : option CacheEntry :=
  if fails env OpGetItem then None
  else match storage w !! String.append storagePrefix key with
       | Some (Json e) => Some e
       | _ => None
       end.

(** The entry is missing or expired: [!(entry && !this.isExpired(entry))]. *)
Definition stale (env : Env) (o : option CacheEntry) : bool :=
  match o with
  | Some e => isExpired env e
  | None => true
  end.

(** The result and world of [remove env key ;;; ret None]. *)
Definition removed_miss (env : Env) (key : string) (w : World)
  : Result (option T) * World :=
  if fails env OpRemoveItem
  then (Rejected (StorageError OpRemoveItem),
        mkWorld (Map_delete key (memoryCache w)) (storage w))
  else (Ok None, mkWorld (Map_delete key (memoryCache w))
                         (delete (String.append storagePrefix key) (storage w))).

End Cache.

Arguments mkEntry {T}.
Arguments data {T}.
Arguments timestamp {T}.
Arguments expiresAt {T}.
Arguments priority {T}.
Arguments type {T}.
Arguments Json {T}.
Arguments Raw {T}.
Arguments mkWorld {T}.
Arguments memoryCache {T}.
Arguments storage {T}.
Arguments CallSet {T}.
Arguments CallGet {T}.
Arguments CallRemove {T}.
Arguments CallClear {T}.
Arguments CallCleanupTick {T}.
Arguments json_entry {T} json_data e.
Arguments ret {T A} a.
Arguments bind {T A B} m k.
Arguments throw {T A} e.
Arguments try_catch {T A} m h.
Arguments get_memory {T}.
Arguments put_memory {T} m.
Arguments for_each {T A} l f.
Arguments Map_get {T} k m.
Arguments Map_set {T} k e m.
Arguments Map_delete {T} k m.
Arguments Map_size {T} m.
Arguments getItem {T} env k.
Arguments setItem {T} env k v.
Arguments removeItem {T} env k.
Arguments getAllKeys {T} env.
Arguments multiRemove {T} env ks.
Arguments isExpired {T} env entry.
Arguments setToStorage {T} json_data env key entry.
Arguments getFromStorage {T} env key.
Arguments score {T} e.
Arguments comparefn {T} a b.
Arguments sortCompare {T} a b.
Arguments sort_insert {T} x l.
Arguments sort {T} l.
Arguments victims {T} m.
Arguments delete_all {T} ks m.
Arguments evicted {T} m.
Arguments evictFromMemoryCache {T}.
Arguments new_entry {T} env key d customConfig.
Arguments set {T} json_data env key d customConfig.
Arguments remove {T} env key.
Arguments get_from_storage_tier {T} env key memoryEntry.
Arguments get {T} env key.
Arguments clear {T} env.
Arguments as_critical {T} d.
Arguments warmup_key {T} env key.
Arguments warmupCriticalCache {T} env.
Arguments performCleanup {T} env.
Arguments memorySize {T} w.
Arguments construct {T} env st.
Arguments perform {T} json_data env c w.
Arguments run {T} json_data calls w.
Arguments is_get {T} c.
Arguments Map_wf {T} m.
Arguments typed {T} p.
Arguments kept {T} ks p.
Arguments rank {T} p.
Arguments memory_after_set {T} env key d cc m.
Arguments storage_after_set {T} json_data env key d cc st.
Arguments read_storage {T} env key w.
Arguments stale {T} env o.
Arguments removed_miss {T} env key w.

(** ** A concrete cache: text payloads that JSON writes and reads back
    unchanged *)

Definition ms (t : Z) : Env := mkEnv t no_faults.

Definition override (age : Z) (p : Priority) (t : DataType)
  : option PartialConfig :=
  Some (mkPartial (Present age) (Present p) (Present t)).

(** The keys [k0], [k1], ... *)
Definition key_of (i : nat) : string :=
  String.append "k" (String (Ascii.ascii_of_nat (48 + i / 10))
                            (String (Ascii.ascii_of_nat (48 + i mod 10)) "")).

Definition empty_world : World string := mkWorld [] ∅.

(** [n] calls of [set] at time 0, keys [k(from)] onwards, all with the
    same override. *)
Definition sets (from n : nat) (cc : option PartialConfig)
  : list (Env * Call string) :=
  map (fun i => (ms 0, CallSet (key_of i) "v" cc)) (seq from n).

Definition json_text : string -> option string := Some.

Definition gets (from n : nat) (t : Z) : list (Env * Call string) :=
  map (fun i => (ms t, CallGet (key_of i))) (seq from n).

Definition plain : option PartialConfig := override 1000 p_normal t_normal.

(** 60 [set]s of distinct keys: the 51st evicts [k00] to [k09], which
    stay in storage. *)
Definition after_60_sets : World string :=
  run json_text (sets 0 60 plain) empty_world.

(** Then ten [get]s bring the evicted keys back. *)
Definition after_10_gets : World string :=
  run json_text (gets 0 10 5) after_60_sets.

(** 50 [set]s with priority [high] and type [critical], the storage
    failing throughout. *)
Definition always_failing (t : Z) : Env := mkEnv t all_faults.

Definition full_of_critical : World string :=
  run json_text
      (map (fun i => (always_failing 0,
                      CallSet (key_of i) "v" (override 1000 p_high t_critical)))
           (seq 0 50))
      empty_world.

(** The same with a working storage. *)
Definition full_of_critical_stored : World string :=
  run json_text (sets 0 50 (override 1000 p_high t_critical)) empty_world.

(** A storage left by an earlier run: a profile that expired at time 10,
    and a key of another component. *)
Definition old_profile : CacheEntry string :=
  mkEntry "profile" 0 (JNum 10) (Some p_low) (Some t_non_critical).

Definition left_over : gmap string (Stored string) :=
  <["gynaid_cache_userProfile" := Json old_profile]>
    (<["auth_token" := Raw "secret"]> ∅).

(** The nine keys of the table set without override, then three keys
    with the override [plain]: twelve entries with the scores
    4, 4, 4, 2, 2, 2, 0, 0, 0, 2, 2, 2. *)
Definition twelve : World string :=
  run json_text
      (map (fun kc => (ms 0, CallSet (fst kc) "v" None)) cacheConfigs_table
       ++ sets 0 3 plain)
      empty_world.


(** An environment in which only [removeItem] fails. *)
Definition removeItem_fails (t : Z) : Env :=
  mkEnv t (fun op => match op with OpRemoveItem => true | _ => false end).

(** [userProfile] set at time 0: both tiers hold it. *)
Definition with_profile : World string :=
  snd (set json_text (ms 0) "userProfile" "v" None empty_world).

(** The same after a [remove] whose storage delete failed: only the
    storage holds it. *)
Definition profile_in_storage_only : World string :=
  snd (remove (removeItem_fails 1) "userProfile" with_profile).

(** [notifications] (window 30 min) and [userProfile] (window 24 h) set
    at time 0. *)
Definition mixed_ages : World string :=
  run json_text [(ms 0, CallSet "notifications" "n" None);
                 (ms 0, CallSet "userProfile" "p" None)] empty_world.

(** Twelve [set]s with the same override: all scores tie. *)
Definition twelve_plain : World string :=
  run json_text (sets 0 12 plain) empty_world.



(** Ten [set]s, [labResults] without policy and without override, 40
    more [set]s (the last one evicts [k00] to [k09]), nine more, and
    [get "k00"], which brings [k00] back from the storage: 51 entries,
    [labResults] the first of them. *)
Definition over_capacity_with_labResults : World string :=
  run json_text
      (sets 0 10 plain ++ [(ms 0, CallSet "labResults" "v" None)]
         ++ sets 10 40 plain ++ sets 50 9 plain ++ gets 0 1 1)
      empty_world.

(** ** The rest of the class: timer and shutdown *)

(** The instance with its timer: [cleanupInterval] is [true] while it
    holds the handle of a running interval and [false] when it is
    [null]. *)
Record Manager (T : Type) : Type := mkManager {
  mgr_world : World T;
  cleanupInterval : bool
}.
Arguments mkManager {T}.
Arguments mgr_world {T}.
Arguments cleanupInterval {T}.

(** [startCleanupService] *)
Definition startCleanupService {T} (m : Manager T) : Manager T :=
  mkManager (mgr_world m) true.

(** [stopCleanupService] *)
Definition stopCleanupService {T} (m : Manager T) : Manager T :=
  if cleanupInterval m then mkManager (mgr_world m) false else m.

(** The constructor: the timer is started, then the warmup runs. *)
Definition new_manager {T} (env : Env) (st : gmap string (Stored T))
  : Manager T :=
  let m := startCleanupService (mkManager (mkWorld [] st) false) in
  mkManager (snd (warmupCriticalCache env (mgr_world m))) (cleanupInterval m).

(** The callback of [setInterval]: it runs [performCleanup] while the
    interval has not been cleared. *)
Definition interval_tick {T} (env : Env) (m : Manager T) : Manager T :=
  if cleanupInterval m
  then mkManager (snd (performCleanup env (mgr_world m))) true
  else m.

(** [cleanup] *)
Definition cleanup {T} (m : Manager T) : Manager T :=
  let m1 := stopCleanupService m in
  mkManager (mkWorld [] (storage (mgr_world m1))) (cleanupInterval m1).

(** ** The caller: [HealthcarePerformanceValidator]

    The metrics are floating-point numbers; their types and the
    floating-point computation that the modelled methods reach are
    parameters. *)

(** The strings [getHealthCheckStatus] returns. *)
Inductive HealthCheck : Type :=
| Initializing | Stabilizing | Monitoring | ProductionReady.

Definition HealthCheck_eqb (a b : HealthCheck) : bool :=
  match a, b with
  | Initializing, Initializing | Stabilizing, Stabilizing
  | Monitoring, Monitoring | ProductionReady, ProductionReady => true
  | _, _ => false
  end.

(** [getHealthCheckStatus]: [Math.floor(uptime / (1000 * 60 * 60))] on
    integer clock readings is the floor division. *)
Definition getHealthCheckStatus (validationStartTime now_ : Z) : HealthCheck :=
  let uptime := now_ - validationStartTime in
  let hoursRunning := uptime / (1000 * 60 * 60) in
  if hoursRunning <? 1 then Initializing
  else if hoursRunning <? 24 then Stabilizing
  else if hoursRunning <? 168 then Monitoring
  else ProductionReady.

(** The object [verifyHealthcarePreservation] returns. *)
Record Preservation : Type := mkPreservation {
  dataIntegrity : bool;
  securityCompliance : bool;
  offlineCapability : bool;
  emergencyFeatures : bool;
  auditTrail : bool
}.

Definition verifyHealthcarePreservation : Preservation :=
  mkPreservation true true true true true.

(** [Object.values(p)] *)
Definition Preservation_values (p : Preservation) : list bool :=
  [dataIntegrity p; securityCompliance p; offlineCapability p;
   emergencyFeatures p; auditTrail p].

Section Validator.

(** [HealthcarePerformanceBaseline], [PerformanceMetrics] and the object
    of [calculateImprovements]. *)
Variables Baseline Metrics Improvements : Type.

(** [calculateImprovements] on a baseline and current metrics. *)
Variable calculateImprovements : Baseline -> Metrics -> Improvements.

Record Validator : Type := mkValidator {
  baselineMetrics : option Baseline;
  currentMetrics : option Metrics;
  validationStartTime : Z
}.

Record PerformanceReport : Type := mkReport {
  report_baseline : option Baseline;
  report_current : option Metrics;
  report_improvements : option Improvements;
  healthCheck : HealthCheck
}.

(** [getPerformanceReport] *)
Definition getPerformanceReport (v : Validator) (now_ : Z) : PerformanceReport :=
  mkReport (baselineMetrics v) (currentMetrics v)
           (match currentMetrics v, baselineMetrics v with
            | Some c, Some b => Some (calculateImprovements b c)
            | _, _ => None
            end)
           (getHealthCheckStatus (validationStartTime v) now_).

(** [isProductionReady] *)
Definition isProductionReady (v : Validator) (now_ : Z) : bool :=
  let healthcarePreservation := verifyHealthcarePreservation in
  let allPreserved :=
    forallb (fun b => b) (Preservation_values healthcarePreservation) in
  let performanceCheck := getPerformanceReport v now_ in
  let isPerformingWell :=
    HealthCheck_eqb (healthCheck performanceCheck) ProductionReady in
  allPreserved && isPerformingWell.

End Validator.

Arguments mkValidator {Baseline Metrics}.
Arguments baselineMetrics {Baseline Metrics}.
Arguments currentMetrics {Baseline Metrics}.
Arguments validationStartTime {Baseline Metrics}.
Arguments healthCheck {Baseline Metrics Improvements}.
Arguments getPerformanceReport {Baseline Metrics Improvements}.
Arguments isProductionReady {Baseline Metrics Improvements}.

(** ** Facts about [Map] *)

Section MapFacts.

Context {T : Type}.
Implicit Types (m : list (string * CacheEntry T)) (k : string)
         (e : CacheEntry T).

Lemma Map_get_set_eq k e m : Map_get k (Map_set k e m) = Some e.
Proof.
  unfold Map_get. induction m as [|[k' e'] m IH]; simpl.
  - now rewrite String.eqb_refl.
  - destruct (String.eqb k' k) eqn:E; simpl.
    + now rewrite String.eqb_refl.
    + now rewrite E.
Qed.

Lemma Map_get_set_ne k k' e m :
  k <> k' -> Map_get k' (Map_set k e m) = Map_get k' m.
Proof.
  intros Hne. unfold Map_get. induction m as [|[k0 e0] m IH]; simpl.
  - destruct (String.eqb_spec k k'); [contradiction | reflexivity].
  - destruct (String.eqb_spec k0 k) as [->|Hk]; simpl.
    + destruct (String.eqb_spec k k'); [contradiction | reflexivity].
    + destruct (String.eqb_spec k0 k'); [reflexivity | exact IH].
Qed.

Lemma Map_get_In k e m : Map_get k m = Some e -> In (k, e) m.
Proof.
  unfold Map_get. induction m as [|[k' e'] m IH]; simpl; [discriminate|].
  destruct (String.eqb_spec k' k) as [->|Hk].
  - intros [= ->]. now left.
  - intros H. right. now apply IH.
Qed.

Lemma Map_get_None k m : Map_get k m = None <-> ~ In k (map fst m).
Proof.
  unfold Map_get. induction m as [|[k' e'] m IH]; simpl.
  - split; [intros _ [] | reflexivity].
  - destruct (String.eqb_spec k' k) as [->|Hk].
    + split; [discriminate | intros H; exfalso; apply H; now left].
    + rewrite IH. split.
      * intros H [H1|H1]; [now apply Hk | now apply H].
      * intros H H1. apply H. now right.
Qed.

Lemma In_Map_get k e m : Map_wf m -> In (k, e) m -> Map_get k m = Some e.
Proof.
  unfold Map_wf, Map_get. induction m as [|[k' e'] m IH]; simpl; [intros _ []|].
  intros Hnd. apply NoDup_cons in Hnd as [Hnotin Hnd].
  intros [[= -> ->]|Hin].
  - now rewrite String.eqb_refl.
  - destruct (String.eqb_spec k' k) as [->|Hk].
    + exfalso. apply Hnotin, list_elem_of_In.
      change k with (fst (k, e)). now apply in_map.
    + now apply IH.
Qed.

Lemma Map_set_keys k e m :
  map fst (Map_set k e m) =
  match Map_get k m with
  | Some _ => map fst m
  | None => map fst m ++ [k]
  end.
Proof.
  unfold Map_get. induction m as [|[k' e'] m IH]; simpl; [reflexivity|].
  destruct (String.eqb_spec k' k) as [->|Hk]; simpl; [reflexivity|].
  rewrite IH. now destruct (assoc k m).
Qed.

Lemma Map_set_length k e m :
  length (Map_set k e m) =
  match Map_get k m with
  | Some _ => length m
  | None => S (length m)
  end.
Proof.
  rewrite <- (length_map fst (Map_set k e m)), Map_set_keys.
  destruct (Map_get k m); rewrite ?length_app, length_map; simpl; lia.
Qed.

Lemma Map_set_fresh k e m : Map_get k m = None -> Map_set k e m = m ++ [(k, e)].
Proof.
  unfold Map_get. induction m as [|[k' e'] m IH]; simpl; [reflexivity|].
  destruct (String.eqb k' k); [discriminate|].
  intros H. now rewrite IH.
Qed.

Lemma Map_set_wf k e m : Map_wf m -> Map_wf (Map_set k e m).
Proof.
  unfold Map_wf. intros Hnd. rewrite Map_set_keys.
  destruct (Map_get k m) eqn:E; [exact Hnd|].
  apply Map_get_None in E.
  apply NoDup_app; split; [exact Hnd | split].
  - intros x Hx [->|[]]%list_elem_of_In. apply E. now apply list_elem_of_In.
  - apply NoDup_cons; split; [intros []%list_elem_of_In | constructor].
Qed.

End MapFacts.

(** ** Facts about deletion and sorting *)

Section EvictionFacts.

Context {T : Type}.
Implicit Types (m l : list (string * CacheEntry T)) (k : string)
         (e : CacheEntry T) (x y : string * CacheEntry T).

Lemma existsb_eqb_In k ks : existsb (String.eqb k) ks = true <-> In k ks.
Proof.
  rewrite existsb_exists. split.
  - intros [k' [Hin ->%String.eqb_eq]]. exact Hin.
  - intros Hin. exists k. split; [exact Hin | apply String.eqb_refl].
Qed.

Lemma filter_twice {A} (f g : A -> bool) (l : list A) :
  List.filter f (List.filter g l) = List.filter (fun a => g a && f a) l.
Proof.
  induction l as [|a l IH]; simpl; [reflexivity|].
  destruct (g a); simpl; [destruct (f a)|]; now rewrite IH.
Qed.

Lemma filter_none {A} (f : A -> bool) (l : list A) :
  (forall a, In a l -> f a = false) -> List.filter f l = [].
Proof.
  induction l as [|a l IH]; simpl; intros H; [reflexivity|].
  rewrite (H a) by now left. apply IH. intros b Hb. apply H. now right.
Qed.

Lemma filter_every {A} (f : A -> bool) (l : list A) :
  (forall a, In a l -> f a = true) -> List.filter f l = l.
Proof.
  induction l as [|a l IH]; simpl; intros H; [reflexivity|].
  rewrite (H a) by now left. f_equal. apply IH. intros b Hb. apply H. now right.
Qed.

Lemma filter_Permutation' {A} (f : A -> bool) (l l' : list A) :
  Permutation l l' -> Permutation (List.filter f l) (List.filter f l').
Proof.
  induction 1 as [|a l l' _ IH|a b l|l1 l2 l3 _ IH1 _ IH2]; simpl.
  - constructor.
  - destruct (f a); [now constructor | exact IH].
  - destruct (f a), (f b); try reflexivity. constructor.
  - now transitivity (List.filter f l2).
Qed.

Lemma delete_all_filter ks m : delete_all ks m = List.filter (kept ks) m.
Proof.
  unfold delete_all. revert m.
  induction ks as [|k ks IH]; intros m; simpl.
  - symmetry. now apply filter_every.
  - rewrite IH. unfold Map_delete. rewrite filter_twice.
    apply filter_ext. intros [k' e']. unfold kept. simpl.
    now rewrite negb_orb.
Qed.

Lemma Map_get_filter (P : string -> bool) k m :
  Map_get k (List.filter (fun p => P (fst p)) m) =
  if P k then Map_get k m else None.
Proof.
  unfold Map_get. induction m as [|[k' e'] m IH]; simpl.
  - now destruct (P k).
  - destruct (String.eqb_spec k' k) as [->|Hk].
    + destruct (P k) eqn:E; simpl; [now rewrite String.eqb_refl | exact IH].
    + destruct (P k') eqn:E'; simpl; [|exact IH].
      destruct (String.eqb_spec k' k); [contradiction | exact IH].
Qed.

Lemma Map_get_delete_all k ks m :
  Map_get k (delete_all ks m) =
  if existsb (String.eqb k) ks then None else Map_get k m.
Proof.
  rewrite delete_all_filter.
  rewrite (Map_get_filter (fun k' => negb (existsb (String.eqb k') ks))).
  now destruct (existsb (String.eqb k) ks).
Qed.

Lemma Map_get_delete k k' m :
  Map_get k' (Map_delete k m) =
  if String.eqb k' k then None else Map_get k' m.
Proof.
  unfold Map_delete.
  rewrite (Map_get_filter (fun k0 => negb (String.eqb k0 k))).
  now destruct (String.eqb k' k).
Qed.

Lemma filter_wf (f : string * CacheEntry T -> bool) m :
  Map_wf m -> Map_wf (List.filter f m).
Proof.
  unfold Map_wf. induction m as [|[k e] m IH]; simpl; [trivial|].
  intros [Hk Hnd]%NoDup_cons.
  destruct (f (k, e)); simpl; [|now apply IH].
  apply NoDup_cons. split; [|now apply IH].
  intros Hin%list_elem_of_In. apply Hk, list_elem_of_In.
  apply in_map_iff in Hin as [[k' e'] [Hfst Hin]]. simpl in Hfst. subst k'.
  apply filter_In in Hin as [Hin _].
  change k with (fst (k, e')). now apply in_map.
Qed.

Lemma filter_length_le {A} (f : A -> bool) (l : list A) :
  (length (List.filter f l) <= length l)%nat.
Proof.
  induction l as [|a l IH]; simpl; [lia|]. destruct (f a); simpl; lia.
Qed.

(** *** The sort *)

Lemma sort_insert_perm x l : Permutation (sort_insert x l) (x :: l).
Proof.
  induction l as [|y l IH]; simpl; [reflexivity|].
  destruct (sortCompare x y <=? 0); [reflexivity|].
  rewrite IH. apply perm_swap.
Qed.

Lemma sort_perm l : Permutation (sort l) l.
Proof.
  induction l as [|x l IH]; simpl; [reflexivity|].
  rewrite sort_insert_perm. now constructor.
Qed.

Lemma sort_length l : length (sort l) = length l.
Proof. apply Permutation_length, sort_perm. Qed.

Lemma sortCompare_typed x y :
  typed x -> typed y -> sortCompare x y = rank x - rank y.
Proof.
  unfold typed, sortCompare, comparefn, rank.
  destruct (score (snd x)), (score (snd y)); intros Hx Hy;
    try reflexivity; contradiction.
Qed.

Lemma sort_insert_sorted x l :
  typed x -> Forall typed l ->
  StronglySorted (fun a b => rank a <= rank b) l ->
  StronglySorted (fun a b => rank a <= rank b) (sort_insert x l).
Proof.
  intros Hx Hl Hs. induction l as [|y l IH]; simpl.
  - repeat constructor.
  - apply Forall_cons in Hl as [Hy Hl].
    apply StronglySorted_inv in Hs as [Hs Hall].
    rewrite sortCompare_typed by assumption.
    destruct (Z.leb_spec (rank x - rank y) 0) as [Hle|Hgt].
    + constructor; [now constructor|].
      constructor; [lia|].
      eapply List.Forall_impl; [|exact Hall]. simpl. intros; lia.
    + constructor; [now apply IH|].
      apply Forall_forall. intros z Hz%list_elem_of_In.
      apply (Permutation_in _ (sort_insert_perm x l)) in Hz as [<-|Hz]; [lia|].
      rewrite List.Forall_forall in Hall. now apply Hall.
Qed.

Lemma sort_sorted l :
  Forall typed l -> StronglySorted (fun a b => rank a <= rank b) (sort l).
Proof.
  induction l as [|x l IH]; simpl; intros H; [constructor|].
  apply Forall_cons in H as [Hx Hl].
  apply sort_insert_sorted; [exact Hx | | now apply IH].
  apply Forall_forall. intros z Hz%list_elem_of_In.
  apply (Permutation_in _ (sort_perm l)) in Hz.
  rewrite Forall_forall in Hl. now apply Hl, list_elem_of_In.
Qed.

Lemma sorted_app_le (R : string * CacheEntry T -> string * CacheEntry T -> Prop)
      l1 l2 :
  StronglySorted R (l1 ++ l2) ->
  forall x y, In x l1 -> In y l2 -> R x y.
Proof.
  induction l1 as [|a l1 IH]; simpl; intros Hs x y Hx Hy; [destruct Hx|].
  apply StronglySorted_inv in Hs as [Hs Hall].
  destruct Hx as [->|Hx]; [|now apply IH].
  rewrite List.Forall_forall in Hall. apply Hall, in_or_app. now right.
Qed.

End EvictionFacts.

Section EvictionTheorems.

Context {T : Type}.
Implicit Types (m l : list (string * CacheEntry T)) (k : string)
         (e : CacheEntry T) (w : World T).

Lemma toRemove_eq : toRemove = 10.
Proof. reflexivity. Qed.

Lemma evicted_perm m :
  Map_wf m -> Permutation (evicted m) (skipn (Z.to_nat toRemove) (sort m)).
Proof.
  intros Hwf. unfold evicted, victims. rewrite delete_all_filter.
  set (n := Z.to_nat toRemove).
  set (ks := map fst (firstn n (sort m))).
  transitivity (List.filter (kept ks) (sort m)).
  { apply filter_Permutation'. symmetry. apply sort_perm. }
  assert (Hnd : NoDup (map fst (firstn n (sort m)) ++ map fst (skipn n (sort m)))).
  { rewrite <- map_app, firstn_skipn. unfold Map_wf in Hwf.
    now rewrite (Permutation_map fst (sort_perm m)). }
  apply NoDup_app in Hnd as (_ & Hdisj & _).
  rewrite <- (firstn_skipn n (sort m)) at 1. rewrite List.filter_app.
  rewrite filter_none, filter_every; [reflexivity | |].
  - intros a Ha. unfold kept. apply negb_true_iff.
    destruct (existsb (String.eqb (fst a)) ks) eqn:E; [|reflexivity].
    apply existsb_eqb_In in E. exfalso.
    apply (Hdisj (fst a)); apply list_elem_of_In; [exact E|].
    now apply in_map.
  - intros a Ha. unfold kept. apply negb_false_iff, existsb_eqb_In.
    now apply in_map.
Qed.

Lemma evicted_split m :
  Map_wf m -> Permutation m (victims m ++ evicted m).
Proof.
  intros Hwf. rewrite (evicted_perm m Hwf). unfold victims.
  rewrite firstn_skipn. symmetry. apply sort_perm.
Qed.

Lemma evicted_length m :
  Map_wf m -> length (evicted m) = (length m - Z.to_nat toRemove)%nat.
Proof.
  intros Hwf. rewrite (Permutation_length (evicted_perm m Hwf)).
  now rewrite length_skipn, sort_length.
Qed.

Lemma evictFromMemoryCache_eq w :
  evictFromMemoryCache w = (Ok tt, mkWorld (evicted (memoryCache w)) (storage w)).
Proof. reflexivity. Qed.

(** The eviction on a memory cache of at least 10 entries: the score of
    an entry with a priority and a type is the sum of their ranks
    (low 0, normal 1, high 2; non-critical 0, normal 1, critical 2); the
    entries removed are the 10 entries [victims] (the cache before is a
    rearrangement of the removed entries followed by the cache after);
    and when every entry carries a priority and a type, the score of
    every removed entry is at most the score of every entry that
    stays. *)
Theorem eviction_removes_ten_lowest w :
  Map_wf (memoryCache w) ->
  (10 <= length (memoryCache w))%nat ->
  let before := memoryCache w in
  let after := memoryCache (snd (evictFromMemoryCache w)) in
  (forall (e : CacheEntry T) p t,
     priority e = Some p -> type e = Some t ->
     score e = Some (match p with p_low => 0 | p_normal => 1 | p_high => 2 end
                     + match t with
                       | t_non_critical => 0
                       | t_normal => 1
                       | t_critical => 2
                       end)) /\
  toRemove = Z.max 1 (50 * 2 / 10) /\ toRemove = 10 /\
  Permutation before (victims before ++ after) /\
  length (victims before) = 10%nat /\
  length after = (length before - 10)%nat /\
  (Forall typed before ->
   forall v r, In v (victims before) -> In r after ->
     exists sv sr, score (snd v) = Some sv /\ score (snd r) = Some sr /\
                   sv <= sr).
Proof.
  intros Hwf Hlen before after. subst before after.
  rewrite evictFromMemoryCache_eq. simpl.
  split.
  { intros e p t Hp Ht. unfold score. rewrite Hp, Ht. now destruct p, t. }
  repeat split; try reflexivity.
  - now apply evicted_split.
  - unfold victims. rewrite length_firstn, sort_length.
    rewrite toRemove_eq. lia.
  - rewrite evicted_length by assumption. now rewrite toRemove_eq.
  - intros Hty v r Hv Hr.
    pose proof (sort_sorted (memoryCache w) Hty) as Hs.
    rewrite <- (firstn_skipn (Z.to_nat toRemove)) in Hs.
    apply (Permutation_in _ (evicted_perm _ Hwf)) in Hr.
    pose proof (sorted_app_le _ _ _ Hs v r Hv Hr) as Hle. simpl in Hle.
    assert (Htv : typed v).
    { rewrite Forall_forall in Hty. apply Hty, list_elem_of_In.
      apply (Permutation_in _ (sort_perm _)).
      rewrite <- (firstn_skipn (Z.to_nat toRemove)). apply in_or_app. now left. }
    assert (Htr : typed r).
    { rewrite Forall_forall in Hty. apply Hty, list_elem_of_In.
      apply (Permutation_in _ (sort_perm _)).
      rewrite <- (firstn_skipn (Z.to_nat toRemove)). apply in_or_app. now right. }
    unfold typed in Htv, Htr. unfold rank in Hle.
    destruct (score (snd v)) as [sv|]; [|contradiction].
    destruct (score (snd r)) as [sr|]; [|contradiction].
    now exists sv, sr.
Qed.

End EvictionTheorems.

Section FacadeFacts.

Context {T : Type} (json_data : T -> option T).
Implicit Types (m : list (string * CacheEntry T)) (k key : string)
         (e : CacheEntry T) (w : World T) (env : Env).

Lemma set_eq env key d cc w :
  set json_data env key d cc w =
  (Ok tt, mkWorld (memory_after_set env key d cc (memoryCache w))
                  (storage_after_set json_data env key d cc (storage w))).
Proof.
  unfold set, memory_after_set, storage_after_set, bind, get_memory,
    put_memory, evictFromMemoryCache, setToStorage, try_catch, setItem,
    throw, ret.
  destruct w as [m st]. simpl.
  destruct (maxMemoryCacheSize <? _); simpl;
    destruct (json_entry _ _); simpl;
    destruct (fails env OpSetItem); reflexivity.
Qed.

Lemma getFromStorage_eq env key w :
  getFromStorage env key w = (Ok (read_storage env key w), w).
Proof.
  unfold getFromStorage, read_storage, try_catch, bind, getItem, ret.
  destruct (fails env OpGetItem); [reflexivity|].
  destruct (storage w !! _) as [[e|s]|]; reflexivity.
Qed.

Lemma remove_eq env key w :
  remove env key w =
  if fails env OpRemoveItem
  then (Rejected (StorageError OpRemoveItem),
        mkWorld (Map_delete key (memoryCache w)) (storage w))
  else (Ok tt, mkWorld (Map_delete key (memoryCache w))
                       (delete (String.append storagePrefix key) (storage w))).
Proof.
  unfold remove, bind, get_memory, put_memory, removeItem. simpl.
  destruct (fails env OpRemoveItem); reflexivity.
Qed.

Lemma get_from_storage_tier_eq env key me w :
  get_from_storage_tier env key me w =
  match read_storage env key w with
  | Some se =>
      if negb (isExpired env se)
      then (Ok (Some (data se)),
            mkWorld (Map_set key se (memoryCache w)) (storage w))
      else removed_miss env key w
  | None =>
      match me with
      | Some _ => removed_miss env key w
      | None => (Ok None, w)
      end
  end.
Proof.
  unfold get_from_storage_tier, bind, removed_miss.
  rewrite getFromStorage_eq.
  destruct (read_storage env key w) as [se|].
  - destruct (negb (isExpired env se)); [reflexivity|].
    rewrite remove_eq. now destruct (fails env OpRemoveItem).
  - destruct me; [|reflexivity].
    rewrite remove_eq. now destruct (fails env OpRemoveItem).
Qed.

Lemma get_eq env key w :
  get env key w =
  match Map_get key (memoryCache w) with
  | Some e =>
      if negb (isExpired env e) then (Ok (Some (data e)), w)
      else get_from_storage_tier env key (Some e) w
  | None => get_from_storage_tier env key None w
  end.
Proof.
  unfold get, bind, get_memory.
  destruct (Map_get key (memoryCache w)) as [e|]; [|reflexivity].
  now destruct (negb (isExpired env e)).
Qed.

(** The fast path of [get]. *)
Lemma get_memory_hit env key e w :
  Map_get key (memoryCache w) = Some e ->
  isExpired env e = false ->
  get env key w = (Ok (Some (data e)), w).
Proof.
  intros Hm He. unfold get, bind, get_memory. rewrite Hm, He. reflexivity.
Qed.

(** [get] when the memory cache has nothing fresh. *)
Lemma get_stale env key w :
  stale env (Map_get key (memoryCache w)) = true ->
  get env key w =
  get_from_storage_tier env key (Map_get key (memoryCache w)) w.
Proof.
  intros Hs. unfold get, bind, get_memory.
  destruct (Map_get key (memoryCache w)) as [e|]; [|reflexivity].
  simpl in Hs. rewrite Hs. reflexivity.
Qed.

(** The promotion path of [get]. *)
Lemma get_promote env key se w :
  stale env (Map_get key (memoryCache w)) = true ->
  read_storage env key w = Some se ->
  isExpired env se = false ->
  get env key w =
  (Ok (Some (data se)), mkWorld (Map_set key se (memoryCache w)) (storage w)).
Proof.
  intros Hs Hr He. rewrite get_stale by exact Hs.
  unfold get_from_storage_tier, bind. rewrite getFromStorage_eq, Hr, He.
  reflexivity.
Qed.

(** The miss of [get] on a key that no tier knows. *)
Lemma get_absent env key w :
  Map_get key (memoryCache w) = None ->
  read_storage env key w = None ->
  get env key w = (Ok None, w).
Proof.
  intros Hm Hr. rewrite get_stale by now rewrite Hm.
  unfold get_from_storage_tier, bind. rewrite getFromStorage_eq, Hr, Hm.
  reflexivity.
Qed.

(** The miss of [get] on a key found expired: it is removed. *)
Lemma get_expired env key w :
  stale env (Map_get key (memoryCache w)) = true ->
  stale env (read_storage env key w) = true ->
  (Map_get key (memoryCache w) <> None \/ read_storage env key w <> None) ->
  fails env OpRemoveItem = false ->
  get env key w =
  (Ok None, mkWorld (Map_delete key (memoryCache w))
                    (delete (String.append storagePrefix key) (storage w))).
Proof.
  intros Hs Hr Hsome Hf. rewrite get_stale by exact Hs.
  unfold get_from_storage_tier, bind. rewrite getFromStorage_eq.
  destruct (read_storage env key w) as [se|]; simpl in Hr.
  - rewrite Hr. simpl. rewrite remove_eq, Hf. reflexivity.
  - destruct (Map_get key (memoryCache w)) as [e|].
    + rewrite remove_eq, Hf. reflexivity.
    + destruct Hsome as [H|H]; contradiction.
Qed.

(** Whatever [get] returns as a value is the payload of an entry held by
    one of the tiers that [isExpired] does not call expired. *)
Lemma get_returns_fresh env key w d w' :
  get env key w = (Ok (Some d), w') ->
  exists e, (Map_get key (memoryCache w) = Some e \/
             storage w !! String.append storagePrefix key = Some (Json e)) /\
            data e = d /\ isExpired env e = false.
Proof.
  assert (Hst : forall se, read_storage env key w = Some se ->
            storage w !! String.append storagePrefix key = Some (Json se)).
  { unfold read_storage. intros se. destruct (fails env OpGetItem); [discriminate|].
    destruct (storage w !! _) as [[e0|s]|]; try discriminate. now intros [= ->]. }
  assert (Htier : forall me,
            get_from_storage_tier env key me w = (Ok (Some d), w') ->
            exists e, storage w !! String.append storagePrefix key = Some (Json e) /\
                      data e = d /\ isExpired env e = false).
  { intros me. rewrite get_from_storage_tier_eq. unfold removed_miss.
    destruct (read_storage env key w) as [se|] eqn:Hr.
    - destruct (isExpired env se) eqn:Hse; simpl.
      + destruct (fails env OpRemoveItem); discriminate.
      + intros [= <- _]. exists se. split; [now apply Hst | now split].
    - destruct me; [destruct (fails env OpRemoveItem)|]; discriminate. }
  rewrite get_eq.
  destruct (Map_get key (memoryCache w)) as [e|] eqn:Hm.
  - destruct (isExpired env e) eqn:He; simpl.
    + intros H. apply Htier in H as (se & H1 & H2 & H3). exists se. auto.
    + intros [= <- _]. exists e. split; [now left | now split].
  - intros H. apply Htier in H as (se & H1 & H2 & H3). exists se. auto.
Qed.

(** [get] rejects only when [AsyncStorage.removeItem] does. *)
Lemma get_rejects_only_on_removeItem env key w :
  fails env OpRemoveItem = false ->
  exists r, fst (get env key w) = Ok r.
Proof.
  intros Hf. rewrite get_eq.
  destruct (Map_get key (memoryCache w)) as [e|];
    [destruct (negb (isExpired env e)); [eexists; reflexivity|]|];
    rewrite get_from_storage_tier_eq; unfold removed_miss; rewrite Hf;
    (destruct (read_storage env key w) as [se|];
     [destruct (negb (isExpired env se))|]); simpl; eexists; reflexivity.
Qed.

(** [get] touches no other key of the memory cache: it evicts nothing. *)
Lemma get_other_keys env key w k :
  k <> key ->
  Map_get k (memoryCache (snd (get env key w))) = Map_get k (memoryCache w).
Proof.
  intros Hne. rewrite get_eq.
  assert (Hd : Map_get k (Map_delete key (memoryCache w)) = Map_get k (memoryCache w)).
  { rewrite Map_get_delete. destruct (String.eqb_spec k key); [contradiction|reflexivity]. }
  assert (Hs : forall se, Map_get k (Map_set key se (memoryCache w)) = Map_get k (memoryCache w)).
  { intros se. apply Map_get_set_ne. congruence. }
  destruct (Map_get key (memoryCache w)) as [e|];
    [destruct (negb (isExpired env e)); [reflexivity|]|];
    rewrite get_from_storage_tier_eq; unfold removed_miss;
    (destruct (read_storage env key w) as [se|];
     [destruct (negb (isExpired env se))|]); simpl;
    try destruct (fails env OpRemoveItem); simpl; auto.
Qed.

End FacadeFacts.

Section SetAndGet.

Context {T : Type} (json_data : T -> option T).
Implicit Types (m : list (string * CacheEntry T)) (k key : string)
         (e : CacheEntry T) (w : World T) (env : Env).

Lemma new_entry_configured env key cfg (d : T) :
  cacheConfigs key = Some cfg ->
  new_entry env key d None =
  mkEntry d (now env) (JNum (now env + maxAge cfg))
          (Some (cfg_priority cfg)) (Some (cfg_type cfg)).
Proof. intros H. unfold new_entry. now rewrite H. Qed.

Lemma new_entry_unconfigured env key (d : T) :
  cacheConfigs key = None ->
  new_entry env key d None = mkEntry d (now env) JNaN None None.
Proof. intros H. unfold new_entry. now rewrite H. Qed.

(** After [set], the memory cache holds the new entry under the key, or
    nothing under it when the eviction took it. *)
Lemma memory_after_set_lookup env key (d : T) cc m :
  Map_get key (memory_after_set env key d cc m) = Some (new_entry env key d cc) \/
  Map_get key (memory_after_set env key d cc m) = None.
Proof.
  unfold memory_after_set.
  destruct (maxMemoryCacheSize <? _).
  - unfold evicted. rewrite Map_get_delete_all.
    destruct (existsb _ _); [now right | left; apply Map_get_set_eq].
  - left. apply Map_get_set_eq.
Qed.

(** Without an eviction the new entry is in the memory cache. *)
Lemma memory_after_set_resident env key (d : T) cc m :
  Map_size (Map_set key (new_entry env key d cc) m) <= maxMemoryCacheSize ->
  Map_get key (memory_after_set env key d cc m) = Some (new_entry env key d cc).
Proof.
  intros H. unfold memory_after_set.
  destruct (Z.ltb_spec maxMemoryCacheSize
              (Map_size (Map_set key (new_entry env key d cc) m))); [lia|].
  apply Map_get_set_eq.
Qed.

(** C1 (amended). [set] returns normally on every input: for a key with
    or without an entry in [cacheConfigs], with or without an override,
    and whatever the storage does.  There is no [MissingPolicy] error, and
    [set] has no hard error. *)
Theorem set_never_rejects env key (d : T) cc w :
  fst (set json_data env key d cc w) = Ok tt.
Proof. now rewrite set_eq. Qed.

(** C9 (amended). For a key without a policy and a call without an
    override, [set] returns normally; the entry it writes into the memory cache has
    [expiresAt = NaN] and no priority and no type; [isExpired] is false
    for that entry at every time; while the memory cache holds it, [get]
    returns the value at every time; and the memory cache holds it after
    the [set] whenever the [set] ran no eviction. *)
Theorem set_without_policy_never_expires env key (v : T) w :
  cacheConfigs key = None ->
  let e := new_entry env key v None in
  let r := set json_data env key v None w in
  fst r = Ok tt /\
  data e = v /\ expiresAt e = JNaN /\ priority e = None /\ type e = None /\
  Map_get key (Map_set key e (memoryCache w)) = Some e /\
  (Map_size (Map_set key e (memoryCache w)) <= maxMemoryCacheSize ->
   Map_get key (memoryCache (snd r)) = Some e) /\
  (forall env', isExpired env' e = false) /\
  (forall env' w', Map_get key (memoryCache w') = Some e ->
                   get env' key w' = (Ok (Some v), w')).
Proof.
  intros Hcfg e r. subst e r. rewrite set_eq.
  rewrite (new_entry_unconfigured env key v Hcfg). simpl.
  repeat split.
  - apply Map_get_set_eq.
  - intros Hsize.
    rewrite <- (new_entry_unconfigured env key v Hcfg) in *.
    now apply memory_after_set_resident.
  - intros env' w' Hm. now rewrite (get_memory_hit env' key _ w' Hm).
Qed.

(** C6 (amended). For a key with a policy, whatever storage operations
    fail: [set] returns normally, a failing write leaves the storage as it
    was, and while the new entry is in the memory cache (it is whenever
    the [set] ran no eviction) a [get] at a time not after [expiresAt]
    returns the value from the memory cache and changes nothing.  A [get]
    in which [removeItem] does not fail returns normally, whatever reads
    and writes do. *)
Theorem set_and_get_survive_storage_failure env env' key cfg (v : T) w :
  cacheConfigs key = Some cfg ->
  let e := new_entry env key v None in
  let r := set json_data env key v None w in
  fst r = Ok tt /\
  (fails env OpSetItem = true -> storage (snd r) = storage w) /\
  (Map_size (Map_set key e (memoryCache w)) <= maxMemoryCacheSize ->
   Map_get key (memoryCache (snd r)) = Some e) /\
  (Map_get key (memoryCache (snd r)) = Some e ->
   now env' <= now env + maxAge cfg ->
   get env' key (snd r) = (Ok (Some v), snd r)) /\
  (fails env' OpRemoveItem = false ->
   forall key' w', exists res, fst (get env' key' w') = Ok res).
Proof.
  intros Hcfg e r. subst e r. rewrite set_eq. simpl.
  repeat split.
  - intros Hf. unfold storage_after_set. rewrite Hf.
    now destruct (json_entry _ _).
  - apply memory_after_set_resident.
  - intros Hm Ht.
    set (w1 := mkWorld _ _) in *.
    change (Map_get key (memoryCache w1) = Some (new_entry env key v None)) in Hm.
    rewrite (get_memory_hit env' key _ w1 Hm); [reflexivity|].
    rewrite (new_entry_configured env key cfg v Hcfg).
    unfold isExpired. simpl. apply Z.ltb_ge. exact Ht.
  - intros Hf key' w'. now apply get_rejects_only_on_removeItem.
Qed.

(** What a successful write of [set] leaves under the key in storage. *)
Lemma storage_after_set_lookup env key cfg (v : T) st :
  cacheConfigs key = Some cfg ->
  json_data v = Some v ->
  fails env OpSetItem = false ->
  storage_after_set json_data env key v None st
    !! String.append storagePrefix key =
  Some (Json (new_entry env key v None)).
Proof.
  intros Hcfg Hj Hf. unfold storage_after_set, json_entry.
  rewrite (new_entry_configured env key cfg v Hcfg). simpl.
  rewrite Hj, Hf. apply lookup_insert_eq.
Qed.

(** C2 (amended). With a payload that JSON writes and reads back
    unchanged and a storage whose write succeeds during the [set] and
    whose read and delete succeed during the [get]: after [set key v] at
    time [t0] for a key whose policy has the window [maxAge], [get key]
    returns [v] at every time [t <= t0 + maxAge] (the instant [expiresAt]
    included) and returns nothing at every time [t > t0 + maxAge].  In
    every world, a value [get] returns is the payload of an entry of one
    of the tiers with [now <= expiresAt] when [expiresAt] is a number. *)
Theorem set_then_get_within_window env0 env1 key cfg (v : T) w :
  cacheConfigs key = Some cfg ->
  json_data v = Some v ->
  fails env0 OpSetItem = false ->
  fails env1 OpGetItem = false ->
  fails env1 OpRemoveItem = false ->
  let t0 := now env0 in
  let t := now env1 in
  let w1 := snd (set json_data env0 key v None w) in
  (t <= t0 + maxAge cfg -> fst (get env1 key w1) = Ok (Some v)) /\
  (t0 + maxAge cfg < t -> fst (get env1 key w1) = Ok None) /\
  (forall env w' d w'',
     get env key w' = (Ok (Some d), w'') ->
     exists e,
       (Map_get key (memoryCache w') = Some e \/
        storage w' !! String.append storagePrefix key = Some (Json e)) /\
       data e = d /\ isExpired env e = false /\
       forall x, expiresAt e = JNum x -> now env <= x).
Proof.
  intros Hcfg Hj Hw Hr Hd t0 t w1. subst t0 t w1. rewrite set_eq. simpl.
  set (m1 := memory_after_set env0 key v None (memoryCache w)).
  set (st1 := storage_after_set json_data env0 key v None (storage w)).
  assert (Hst : st1 !! String.append storagePrefix key =
                Some (Json (new_entry env0 key v None))).
  { now apply (storage_after_set_lookup env0 key cfg). }
  assert (Hread : read_storage env1 key (mkWorld m1 st1)
                  = Some (new_entry env0 key v None)).
  { unfold read_storage. simpl. now rewrite Hr, Hst. }
  assert (Hexp : isExpired env1 (new_entry env0 key v None)
                 = (now env0 + maxAge cfg <? now env1)).
  { now rewrite (new_entry_configured env0 key cfg v Hcfg). }
  pose proof (memory_after_set_lookup env0 key v None (memoryCache w)) as Hm.
  fold m1 in Hm.
  split; [|split].
  - intros Ht.
    assert (Hfresh : isExpired env1 (new_entry env0 key v None) = false).
    { rewrite Hexp. now apply Z.ltb_ge. }
    destruct Hm as [Hm|Hm].
    + rewrite (get_memory_hit _ key _ (mkWorld m1 st1) Hm Hfresh).
      reflexivity.
    + rewrite (get_promote _ key (new_entry env0 key v None) (mkWorld m1 st1));
        [reflexivity | simpl; now rewrite Hm | apply Hread | exact Hfresh].
  - intros Ht.
    assert (Hold : isExpired env1 (new_entry env0 key v None) = true).
    { rewrite Hexp. now apply Z.ltb_lt. }
    rewrite (get_expired _ key (mkWorld m1 st1)); simpl; try reflexivity.
    + destruct Hm as [Hm|Hm]; rewrite Hm; [exact Hold | reflexivity].
    + rewrite Hread. exact Hold.
    + right. now rewrite Hread.
    + exact Hd.
  - intros env w' d w'' Hget.
    apply get_returns_fresh in Hget as (e & Hwhere & Hdat & He).
    exists e. repeat split; try assumption.
    intros x Hx. unfold isExpired in He. rewrite Hx in He. simpl in He.
    now apply Z.ltb_ge.
Qed.

End SetAndGet.

Section Capacity.

Context {T : Type} (json_data : T -> option T).
Implicit Types (m : list (string * CacheEntry T)) (k key : string)
         (e : CacheEntry T) (w : World T) (env : Env).

(** An entry that sorts strictly before every other one comes first. *)
Lemma sort_lowest_last m (x : string * CacheEntry T) :
  (forall p, In p m -> 0 < sortCompare p x) ->
  sort (m ++ [x]) = x :: sort m.
Proof.
  induction m as [|a m IH]; intros H; simpl; [reflexivity|].
  rewrite IH by (intros p Hp; apply H; now right).
  simpl. destruct (Z.leb_spec (sortCompare a x) 0) as [Hle|_]; [|reflexivity].
  specialize (H a (or_introl eq_refl)). lia.
Qed.

(** A [set] into a memory cache within capacity leaves it within
    capacity, and the cache is never more than one entry above it in
    between. *)
Lemma set_keeps_capacity env key (d : T) cc m :
  Map_wf m ->
  Map_size m <= maxMemoryCacheSize ->
  Map_size (Map_set key (new_entry env key d cc) m) <= maxMemoryCacheSize + 1 /\
  Map_size (memory_after_set env key d cc m) <= maxMemoryCacheSize.
Proof.
  intros Hwf Hsize. unfold memory_after_set.
  set (m1 := Map_set key (new_entry env key d cc) m).
  assert (H1 : Map_size m1 <= maxMemoryCacheSize + 1).
  { unfold Map_size in *. subst m1. rewrite Map_set_length.
    destruct (Map_get key m); lia. }
  split; [exact H1|].
  destruct (Z.ltb_spec maxMemoryCacheSize (Map_size m1)); [|lia].
  unfold Map_size in *. rewrite evicted_length by now apply Map_set_wf.
  rewrite toRemove_eq. unfold maxMemoryCacheSize in *. lia.
Qed.

(** C10. In a memory cache of 50 entries that all score higher than the
    entry a [set] builds for a new key, the eviction that this [set] runs
    sorts 51 entries, the new one among them and first; the new entry is
    one of those it removes.  After the [set] has returned the key is not
    in the memory cache and, the write having succeeded, it is in the
    storage. *)
Theorem set_can_evict_its_own_entry env key (v v' : T) cc w s :
  Map_wf (memoryCache w) ->
  Map_size (memoryCache w) = maxMemoryCacheSize ->
  Map_get key (memoryCache w) = None ->
  score (new_entry env key v cc) = Some s ->
  (forall p, In p (memoryCache w) ->
             exists sp, score (snd p) = Some sp /\ s < sp) ->
  json_data v = Some v' ->
  fails env OpSetItem = false ->
  let e := new_entry env key v cc in
  let r := set json_data env key v cc w in
  length (Map_set key e (memoryCache w)) = 51%nat /\
  In (key, e) (victims (Map_set key e (memoryCache w))) /\
  fst r = Ok tt /\
  Map_get key (memoryCache (snd r)) = None /\
  length (memoryCache (snd r)) = 41%nat /\
  storage (snd r) !! String.append storagePrefix key =
    Some (Json (mkEntry v' (timestamp e) (json_number (expiresAt e))
                        (priority e) (type e))).
Proof.
  intros Hwf Hsize Hnew Hs Hall Hj Hf e r. subst r. rewrite set_eq. simpl.
  unfold Map_size, maxMemoryCacheSize in Hsize.
  assert (Hset : Map_set key e (memoryCache w) = memoryCache w ++ [(key, e)]).
  { now apply Map_set_fresh. }
  assert (Hlen : length (Map_set key e (memoryCache w)) = 51%nat).
  { rewrite Hset, length_app. simpl. lia. }
  assert (Hsort : sort (memoryCache w ++ [(key, e)]) = (key, e) :: sort (memoryCache w)).
  { apply sort_lowest_last. intros p Hp.
    destruct (Hall p Hp) as (sp & Hsp & Hlt).
    unfold sortCompare, comparefn. simpl. fold e in Hs. rewrite Hsp, Hs. lia. }
  assert (Hvict : In (key, e) (victims (Map_set key e (memoryCache w)))).
  { unfold victims. rewrite Hset, Hsort, toRemove_eq. now left. }
  assert (Hmem : memory_after_set env key v cc (memoryCache w) =
                 evicted (Map_set key e (memoryCache w))).
  { unfold memory_after_set. fold e.
    destruct (Z.ltb_spec maxMemoryCacheSize (Map_size (Map_set key e (memoryCache w))));
      [reflexivity|].
    unfold Map_size, maxMemoryCacheSize in *. lia. }
  rewrite Hmem.
  repeat split; try assumption.
  - unfold evicted. rewrite Map_get_delete_all.
    replace (existsb _ _) with true; [reflexivity|].
    symmetry. apply existsb_eqb_In.
    change key with (fst (key, e)). now apply in_map.
  - rewrite evicted_length by now apply Map_set_wf.
    rewrite Hlen, toRemove_eq. reflexivity.
  - unfold storage_after_set, json_entry. fold e. simpl.
    replace (data e) with v by reflexivity.
    rewrite Hj, Hf. apply lookup_insert_eq.
Qed.

(** The promotion of [get] puts the stored entry into the memory cache
    and removes nothing: a memory cache at capacity ends above it. *)
Lemma get_promotion_grows_memory env key se w :
  Map_get key (memoryCache w) = None ->
  read_storage env key w = Some se ->
  isExpired env se = false ->
  get env key w =
    (Ok (Some (data se)),
     mkWorld (memoryCache w ++ [(key, se)]) (storage w)) /\
  Map_size (memoryCache (snd (get env key w))) = Map_size (memoryCache w) + 1.
Proof.
  intros Hm Hr He.
  rewrite (get_promote env key se w); [| now rewrite Hm | exact Hr | exact He].
  rewrite (Map_set_fresh _ _ _ Hm). split; [reflexivity|].
  simpl. unfold Map_size. rewrite length_app. simpl. lia.
Qed.

End Capacity.

Section ClearAndWarmup.

Context {T : Type}.
Implicit Types (m : list (string * CacheEntry T)) (k key : string)
         (e : CacheEntry T) (w : World T) (env : Env)
         (st : gmap string (Stored T)).

Lemma lookup_foldr_delete st ks k :
  foldr delete st ks !! k = if existsb (String.eqb k) ks then None else st !! k.
Proof.
  induction ks as [|a ks IH]; simpl; [reflexivity|].
  rewrite lookup_delete. destruct (decide (a = k)) as [->|Hne].
  - now rewrite String.eqb_refl.
  - destruct (String.eqb_spec k a) as [->|_]; [contradiction | exact IH].
Qed.

Lemma In_storage_keys st k :
  In k (map fst (map_to_list st)) <-> st !! k <> None.
Proof.
  split.
  - intros Hin. apply in_map_iff in Hin as [[k' v] [Hk Hin]]. simpl in Hk. subst k'.
    apply list_elem_of_In, elem_of_map_to_list in Hin. congruence.
  - intros Hsome. destruct (st !! k) as [v|] eqn:E; [|contradiction].
    apply in_map_iff. exists (k, v). split; [reflexivity|].
    now apply list_elem_of_In, elem_of_map_to_list.
Qed.

Lemma clear_eq env w :
  clear env w =
  if fails env OpGetAllKeys
  then (Rejected (StorageError OpGetAllKeys), mkWorld [] (storage w))
  else if fails env OpMultiRemove
  then (Rejected (StorageError OpMultiRemove), mkWorld [] (storage w))
  else (Ok tt,
        mkWorld []
          (foldr delete (storage w)
             (List.filter (fun key => startsWith key storagePrefix)
                          (map fst (map_to_list (storage w)))))).
Proof.
  unfold clear, bind, put_memory, getAllKeys, multiRemove. simpl.
  destruct (fails env OpGetAllKeys); [reflexivity|].
  destruct (fails env OpMultiRemove); reflexivity.
Qed.

(** C7. After [clear] has returned, the memory cache is empty (size 0),
    no storage key that starts with ["gynaid_cache_"] is left, and every
    other storage key holds what it held before. *)
Theorem clear_empties_cache_namespace env w :
  fst (clear env w) = Ok tt ->
  let w' := snd (clear env w) in
  memoryCache w' = [] /\
  memorySize w' = 0 /\
  storagePrefix = "gynaid_cache_" /\
  forall k, storage w' !! k =
            if startsWith k storagePrefix then None else storage w !! k.
Proof.
  rewrite clear_eq.
  destruct (fails env OpGetAllKeys); [discriminate|].
  destruct (fails env OpMultiRemove); [discriminate|].
  intros _. simpl. repeat split. intros k.
  rewrite lookup_foldr_delete.
  destruct (existsb _ _) eqn:E.
  - apply existsb_eqb_In, filter_In in E as [_ ->]. reflexivity.
  - destruct (startsWith k storagePrefix) eqn:Hp; [|reflexivity].
    destruct (storage w !! k) eqn:Hk; [|reflexivity].
    exfalso. apply not_true_iff_false in E. apply E.
    apply existsb_eqb_In, filter_In. split; [|exact Hp].
    apply In_storage_keys. congruence.
Qed.

(** [clear] returns normally exactly when its two storage calls do. *)
Lemma clear_returns env w :
  fails env OpGetAllKeys = false ->
  fails env OpMultiRemove = false ->
  fst (clear env w) = Ok tt.
Proof. intros H1 H2. now rewrite clear_eq, H1, H2. Qed.

Lemma warmup_key_eq env key w :
  warmup_key env key w =
  (Ok tt,
   match read_storage env key w with
   | Some e => mkWorld (Map_set key (as_critical e) (memoryCache w)) (storage w)
   | None => w
   end).
Proof.
  unfold warmup_key, try_catch, bind. rewrite getFromStorage_eq.
  now destruct (read_storage env key w).
Qed.

Lemma read_storage_memory env key m m' st :
  read_storage env key (mkWorld m st) = read_storage env key (mkWorld m' st).
Proof. reflexivity. Qed.

(** C3 (amended). The warmup returns normally and leaves the storage as
    it was.  For each of the three critical keys: when the storage read
    yields a record, the record is in the memory cache afterwards with
    priority [high] and type [critical] and its other fields as stored,
    whether or not it has expired; when the record is absent or
    unreadable, the memory cache holds under that key what it held
    before.  No other key of the memory cache changes. *)
Theorem warmup_loads_every_present_record env w :
  let r := warmupCriticalCache env w in
  fst r = Ok tt /\
  storage (snd r) = storage w /\
  (forall key, In key criticalKeys ->
     match read_storage env key w with
     | Some e =>
         Map_get key (memoryCache (snd r)) =
         Some (mkEntry (data e) (timestamp e) (expiresAt e)
                       (Some p_high) (Some t_critical))
     | None => Map_get key (memoryCache (snd r)) = Map_get key (memoryCache w)
     end) /\
  (forall key, ~ In key criticalKeys ->
     Map_get key (memoryCache (snd r)) = Map_get key (memoryCache w)).
Proof.
  destruct w as [m st]. unfold warmupCriticalCache, criticalKeys. simpl.
  unfold bind. rewrite warmup_key_eq.
  set (step := fun key (m0 : list (string * CacheEntry T)) =>
         match read_storage env key (mkWorld m st) with
         | Some e => Map_set key (as_critical e) m0
         | None => m0
         end).
  assert (Hstep : forall key m0,
            match read_storage env key (mkWorld m0 st) with
            | Some e => mkWorld (Map_set key (as_critical e) (memoryCache (mkWorld m0 st)))
                                (storage (mkWorld m0 st))
            | None => mkWorld m0 st
            end = mkWorld (step key m0) st).
  { intros key m0. unfold step.
    rewrite (read_storage_memory env key m0 m st).
    now destruct (read_storage env key (mkWorld m st)). }
  rewrite Hstep, warmup_key_eq, Hstep, warmup_key_eq, Hstep. simpl.
  assert (Hne : forall key key' m0, key <> key' ->
            Map_get key' (step key m0) = Map_get key' m0).
  { intros key key' m0 Hk. unfold step.
    destruct (read_storage env key (mkWorld m st)); [|reflexivity].
    now apply Map_get_set_ne. }
  assert (Heq : forall key m0,
            match read_storage env key (mkWorld m st) with
            | Some e => Map_get key (step key m0) = Some (as_critical e)
            | None => Map_get key (step key m0) = Map_get key m0
            end).
  { intros key m0. unfold step.
    destruct (read_storage env key (mkWorld m st)); [|reflexivity].
    apply Map_get_set_eq. }
  repeat split.
  - intros key [<-|[<-|[<-|[]]]].
    + rewrite !Hne by discriminate. apply Heq.
    + rewrite Hne by discriminate.
      pose proof (Heq "medicalHistory" (step "userProfile" m)) as H.
      destruct (read_storage env "medicalHistory" (mkWorld m st)); [exact H|].
      rewrite H. now apply Hne.
    + pose proof (Heq "emergencyContacts"
                    (step "medicalHistory" (step "userProfile" m))) as H.
      destruct (read_storage env "emergencyContacts" (mkWorld m st)); [exact H|].
      rewrite H, !Hne by discriminate. reflexivity.
  - intros key Hnot. rewrite !Hne; [reflexivity | | |];
      intros <-; apply Hnot; simpl; auto.
Qed.

End ClearAndWarmup.

(** ** What every run keeps *)

Section Invariants.

Context {T : Type} (json_data : T -> option T).
Implicit Types (m : list (string * CacheEntry T)) (k key : string)
         (e : CacheEntry T) (w : World T) (env : Env).

Lemma for_each_preserves {A} (P : World T -> Prop) (f : A -> M T unit)
      (l : list A) w :
  (forall x w0, P w0 -> P (snd (f x w0))) ->
  P w -> P (snd (for_each l f w)).
Proof.
  intros Hf. revert w. induction l as [|x l IH]; intros w Hw; simpl; [exact Hw|].
  unfold bind. specialize (Hf x w Hw).
  destruct (f x w) as [[[]|err] w0]; simpl in *; [now apply IH | exact Hf].
Qed.

Lemma memory_after_set_wf env key (d : T) cc m :
  Map_wf m -> Map_wf (memory_after_set env key d cc m).
Proof.
  intros Hwf. unfold memory_after_set.
  destruct (maxMemoryCacheSize <? _); [|now apply Map_set_wf].
  unfold evicted. rewrite delete_all_filter. now apply filter_wf, Map_set_wf.
Qed.

Lemma Map_delete_size key m : Map_size (Map_delete key m) <= Map_size m.
Proof.
  unfold Map_size, Map_delete.
  pose proof (filter_length_le (fun p => negb (String.eqb (fst p) key)) m). lia.
Qed.

(** The memory cache [get] leaves: untouched, or with the stored entry
    written under the key, or with the key deleted. *)
Lemma get_memory_cases env key w :
  memoryCache (snd (get env key w)) = memoryCache w \/
  (exists se, memoryCache (snd (get env key w)) = Map_set key se (memoryCache w)) \/
  memoryCache (snd (get env key w)) = Map_delete key (memoryCache w).
Proof.
  rewrite get_eq.
  destruct (Map_get key (memoryCache w)) as [e|];
    [destruct (negb (isExpired env e)); [now left|]|];
    rewrite get_from_storage_tier_eq; unfold removed_miss;
    (destruct (read_storage env key w) as [se|];
     [destruct (negb (isExpired env se))|]); simpl;
    try destruct (fails env OpRemoveItem); simpl; eauto.
Qed.

Lemma performCleanup_step_memory env key w :
  memoryCache
    (snd (bind get_memory
            (fun m' =>
               bind (put_memory (Map_delete key m'))
                    (fun _ => removeItem env (String.append storagePrefix key)))
            w)) =
  Map_delete key (memoryCache w).
Proof.
  unfold bind, get_memory, put_memory, removeItem. simpl.
  now destruct (fails env OpRemoveItem).
Qed.

Lemma performCleanup_eq env w :
  performCleanup env w =
  for_each
    (map fst (List.filter (fun p => isExpired env (snd p)) (memoryCache w)))
    (fun key =>
       bind get_memory
            (fun m' =>
               bind (put_memory (Map_delete key m'))
                    (fun _ => removeItem env (String.append storagePrefix key))))
    w.
Proof. reflexivity. Qed.

(** Every call keeps the memory cache a [Map]. *)
Lemma perform_wf env c w :
  Map_wf (memoryCache w) -> Map_wf (memoryCache (perform json_data env c w)).
Proof.
  intros Hwf. destruct c as [key d cc|key|key| |]; simpl.
  - rewrite set_eq. simpl. now apply memory_after_set_wf.
  - destruct (get_memory_cases env key w) as [->|[[se ->]| ->]];
      [exact Hwf | now apply Map_set_wf | now apply filter_wf].
  - rewrite remove_eq. destruct (fails env OpRemoveItem); simpl;
      now apply filter_wf.
  - rewrite clear_eq.
    destruct (fails env OpGetAllKeys); [constructor|].
    destruct (fails env OpMultiRemove); constructor.
  - rewrite performCleanup_eq.
    apply (for_each_preserves (fun w0 => Map_wf (memoryCache w0))); [|exact Hwf].
    intros key w0 Hw0. rewrite performCleanup_step_memory. now apply filter_wf.
Qed.

Lemma run_wf calls w :
  Map_wf (memoryCache w) -> Map_wf (memoryCache (run json_data calls w)).
Proof.
  unfold run. revert w.
  induction calls as [|[env c] calls IH]; intros w Hwf; simpl; [exact Hwf|].
  now apply IH, perform_wf.
Qed.

(** The constructor leaves a [Map]. *)
Lemma construct_wf env (st : gmap string (Stored T)) :
  Map_wf (memoryCache (construct env st)).
Proof.
  unfold construct, warmupCriticalCache.
  apply (for_each_preserves (fun w0 => Map_wf (memoryCache w0))); [|constructor].
  intros key w0 Hw0. rewrite warmup_key_eq. simpl.
  destruct (read_storage env key w0); [now apply Map_set_wf | exact Hw0].
Qed.

(** Every call other than [get] keeps the memory cache within capacity. *)
Lemma perform_capacity env c w :
  is_get c = false ->
  Map_wf (memoryCache w) ->
  memorySize w <= maxMemoryCacheSize ->
  memorySize (perform json_data env c w) <= maxMemoryCacheSize.
Proof.
  unfold memorySize. intros Hc Hwf Hsize.
  destruct c as [key d cc|key|key| |]; simpl; try discriminate.
  - rewrite set_eq. simpl. now apply set_keeps_capacity.
  - rewrite remove_eq. pose proof (Map_delete_size key (memoryCache w)).
    destruct (fails env OpRemoveItem); simpl; lia.
  - rewrite clear_eq. unfold maxMemoryCacheSize, Map_size.
    destruct (fails env OpGetAllKeys); [simpl; lia|].
    destruct (fails env OpMultiRemove); simpl; lia.
  - rewrite performCleanup_eq.
    apply (for_each_preserves
             (fun w0 => Map_size (memoryCache w0) <= maxMemoryCacheSize));
      [|exact Hsize].
    intros key w0 Hw0. rewrite performCleanup_step_memory.
    pose proof (Map_delete_size key (memoryCache w0)). lia.
Qed.

(** A run without [get] from a memory cache within capacity stays within
    capacity. *)
Lemma run_capacity_without_get calls w :
  Forall (fun ec => is_get (snd ec) = false) calls ->
  Map_wf (memoryCache w) ->
  memorySize w <= maxMemoryCacheSize ->
  memorySize (run json_data calls w) <= maxMemoryCacheSize.
Proof.
  unfold run. revert w.
  induction calls as [|[env c] calls IH]; intros w Hall Hwf Hsize; simpl;
    [exact Hsize|].
  apply Forall_cons in Hall as [Hc Hall]. simpl in Hc.
  apply IH; [exact Hall | now apply perform_wf | now apply perform_capacity].
Qed.

End Invariants.

(** ** The claims on concrete runs *)

Lemma all_score_above {T} (s : Z) (m : list (string * CacheEntry T)) :
  forallb (fun p => match score (snd p) with
                    | Some sp => s <? sp
                    | None => false
                    end) m = true ->
  forall p, In p m -> exists sp, score (snd p) = Some sp /\ s < sp.
Proof.
  intros H p Hp. rewrite forallb_forall in H. specialize (H p Hp).
  destruct (score (snd p)) as [sp|]; [|discriminate].
  exists sp. split; [reflexivity | now apply Z.ltb_lt].
Qed.

Lemma Forall_typed_by_check {T} (m : list (string * CacheEntry T)) :
  forallb (fun p => match score (snd p) with
                    | Some _ => true
                    | None => false
                    end) m = true ->
  Forall typed m.
Proof.
  intros H. apply Forall_forall. intros p Hp%list_elem_of_In.
  rewrite forallb_forall in H. specialize (H p Hp).
  unfold typed. now destruct (score (snd p)).
Qed.

Lemma NoDup_by_decision (ks : list string) :
  bool_decide (NoDup ks) = true -> NoDup ks.
Proof. apply bool_decide_eq_true_1. Qed.

(** C1, counterexample: [labResults] has no policy, the call has no
    override, and [set] returns normally. *)
Lemma set_unknown_key_returns_normally :
  cacheConfigs "labResults" = None /\
  fst (set json_text (ms 0) "labResults" "v" None empty_world) = Ok tt /\
  ~ (exists err,
       fst (set json_text (ms 0) "labResults" "v" None empty_world)
       = Rejected err).
Proof.
  split; [reflexivity|]. split; [reflexivity|].
  intros [err H]. vm_compute in H. discriminate H.
Qed.

(** C2, counterexample: at the instant [t0 + w] itself [get] still
    returns the value; and with a failing storage and 50 resident entries
    of higher score, the [get] one millisecond after the [set] returns
    nothing. *)
Lemma get_at_expiry_instant_returns_value :
  cacheConfigs "notifications" = Some (mkConfig 1800000 p_low t_non_critical) /\
  (let w1 := snd (set json_text (ms 0) "notifications" "v" None empty_world) in
   Map_get "notifications" (memoryCache w1) =
     Some (mkEntry "v" 0 (JNum 1800000) (Some p_low) (Some t_non_critical)) /\
   fst (get (ms (0 + 1800000)) "notifications" w1) = Ok (Some "v") /\
   fst (get (ms (0 + 1800000)) "notifications" w1) <> Ok None) /\
  (let w1 := snd (set json_text (always_failing 0) "notifications" "v" None
                      full_of_critical) in
   fst (get (always_failing 1) "notifications" w1) = Ok None).
Proof.
  split; [reflexivity|]. split.
  - simpl. split; [reflexivity|].
    split; [reflexivity|]. vm_compute. discriminate.
  - vm_compute. reflexivity.
Qed.

(** C2 (amended) on [emergencyContacts] (window 6 h), set at time 0 and
    read at 500 ms, at the instant of expiry and one millisecond later. *)
Lemma set_then_get_within_window_witness :
  let w1 := snd (set json_text (ms 0) "emergencyContacts" "X" None empty_world) in
  fst (get (ms 500) "emergencyContacts" w1) = Ok (Some "X") /\
  fst (get (ms 21600000) "emergencyContacts" w1) = Ok (Some "X") /\
  fst (get (ms 21600001) "emergencyContacts" w1) = Ok None.
Proof.
  pose proof (fun t => set_then_get_within_window json_text (ms 0) (ms t)
                "emergencyContacts"
                (mkConfig (6 * 60 * 60 * 1000) p_high t_critical) "X"
                empty_world eq_refl eq_refl eq_refl eq_refl eq_refl) as H.
  simpl in H. simpl.
  split; [apply (H 500); lia|].
  split; [apply (H 21600000); lia | apply (H 21600001); lia].
Defined.

(** C3, counterexample: the stored profile expired at time 10; the
    warmup at time 1000 puts it into the memory cache. *)
Lemma warmup_loads_expired_record :
  left_over !! "gynaid_cache_userProfile" = Some (Json old_profile) /\
  isExpired (ms 1000) old_profile = true /\
  Map_get "userProfile" (memoryCache (construct (ms 1000) left_over)) =
    Some (mkEntry "profile" 0 (JNum 10) (Some p_high) (Some t_critical)).
Proof. vm_compute. repeat split. Qed.

(** C3 (amended) on the same storage. *)
Lemma warmup_loads_every_present_record_witness :
  let r := warmupCriticalCache (ms 1000) (mkWorld [] left_over) in
  Map_get "userProfile" (memoryCache (snd r)) =
    Some (mkEntry "profile" 0 (JNum 10) (Some p_high) (Some t_critical)) /\
  Map_get "medicalHistory" (memoryCache (snd r)) = None.
Proof.
  destruct (warmup_loads_every_present_record (ms 1000) (mkWorld [] left_over))
    as (_ & _ & H & _).
  split.
  - exact (H "userProfile" (or_introl eq_refl)).
  - exact (H "medicalHistory" (or_intror (or_introl eq_refl))).
Defined.

(** C4. After 60 [set]s of distinct keys and 10 [get]s of the evicted
    keys the memory cache holds 60 entries; the next [set] returns with
    51 entries in it, one more than [maxMemoryCacheSize]. *)
Theorem set_after_promotions_leaves_memory_above_capacity :
  memorySize after_60_sets = 50 /\
  memorySize after_10_gets = 60 /\
  fst (set json_text (ms 6) "k60" "v" plain after_10_gets) = Ok tt /\
  memorySize (snd (set json_text (ms 6) "k60" "v" plain after_10_gets)) = 51 /\
  maxMemoryCacheSize = 50.
Proof. vm_compute. repeat split. Qed.


(** C9, counterexample: [labResults] has no policy; in the memory cache
    of 51 entries it is the first; the [set] without override at time 2
    returns normally and its eviction removes the entry it has just
    written (every comparison of that sort yields 0); the [get] at
    time 3 finds the stored copy expired and returns nothing. *)
Lemma set_without_policy_can_lose_its_entry :
  cacheConfigs "labResults" = None /\
  memorySize over_capacity_with_labResults = 51 /\
  (let r := set json_text (ms 2) "labResults" "w" None
                over_capacity_with_labResults in
   fst r = Ok tt /\
   Map_get "labResults" (memoryCache (snd r)) = None /\
   storage (snd r) !! "gynaid_cache_labResults" =
     Some (Json (mkEntry "w" 2 JNull None None)) /\
   fst (get (ms 3) "labResults" (snd r)) = Ok None /\
   fst (get (ms 3) "labResults" (snd r)) <> Ok (Some "w")).
Proof. vm_compute. repeat split. discriminate. Qed.

(** On the memory cache of twelve entries ten are removed,
    [notifications] (score 0) among them, and [medicalHistory] (score 4)
    stays. *)
Lemma eviction_removes_ten_lowest_witness :
  Map_wf (memoryCache twelve) /\
  (10 <= length (memoryCache twelve))%nat /\
  length (victims (memoryCache twelve)) = 10%nat /\
  length (memoryCache (snd (evictFromMemoryCache twelve))) =
    (length (memoryCache twelve) - 10)%nat /\
  exists sv sr,
    score (mkEntry "v" 0 (JNum 1800000) (Some p_low) (Some t_non_critical))
      = Some sv /\
    score (mkEntry "v" 0 (JNum 43200000) (Some p_high) (Some t_critical))
      = Some sr /\
    sv <= sr.
Proof.
  assert (H1 : Map_wf (memoryCache twelve)).
  { apply NoDup_by_decision. vm_compute. reflexivity. }
  assert (H2 : (10 <= length (memoryCache twelve))%nat).
  { vm_compute. lia. }
  split; [exact H1|]. split; [exact H2|].
  destruct (eviction_removes_ten_lowest twelve H1 H2)
    as (_ & _ & _ & _ & H4 & H5 & H6).
  split; [exact H4|]. split; [exact H5|].
  assert (H3 : Forall typed (memoryCache twelve)).
  { apply Forall_typed_by_check. vm_compute. reflexivity. }
  apply (H6 H3
            ("notifications",
             mkEntry "v" 0 (JNum 1800000) (Some p_low) (Some t_non_critical))
            ("medicalHistory",
             mkEntry "v" 0 (JNum 43200000) (Some p_high) (Some t_critical))).
  - vm_compute. repeat first [left; reflexivity | right].
  - vm_compute. repeat first [left; reflexivity | right].
Defined.

(** C6, counterexample: every storage operation fails, the 50 resident
    entries all score 4, and [notifications] (score 0) is set at time 0.
    The [set] returns normally, yet the [get] at time 1, long before the
    entry would expire, returns nothing. *)
Lemma get_after_self_evicting_set_misses :
  cacheConfigs "notifications" = Some (mkConfig 1800000 p_low t_non_critical) /\
  let r := set json_text (always_failing 0) "notifications" "v" None
               full_of_critical in
  fst r = Ok tt /\
  fst (get (always_failing 1) "notifications" (snd r)) = Ok None /\
  fst (get (always_failing 1) "notifications" (snd r)) <> Ok (Some "v").
Proof.
  split; [reflexivity|]. vm_compute. repeat split. discriminate.
Qed.

(** [get] passes on the rejection of [removeItem]: [remove] has no
    [try] around it. *)
Example get_propagates_removeItem_failure :
  let w := snd (set json_text (always_failing 0) "userProfile" "v" None
                    empty_world) in
  fst (get (always_failing 86400001) "userProfile" w) =
  Rejected (StorageError OpRemoveItem).
Proof. reflexivity. Qed.

(** C6 (amended) on [userProfile] with a storage that fails every
    operation, and a [get] under a storage that fails reads and writes
    only. *)
Lemma set_and_get_survive_storage_failure_witness :
  let r := set json_text (always_failing 0) "userProfile" "v" None empty_world in
  let reads_and_writes_fail :=
    mkEnv 86400001 (fun op => match op with
                              | OpGetItem | OpSetItem => true
                              | _ => false
                              end) in
  fst r = Ok tt /\
  storage (snd r) = storage empty_world /\
  get (always_failing 1000) "userProfile" (snd r) = (Ok (Some "v"), snd r) /\
  exists res, fst (get reads_and_writes_fail "userProfile" (snd r)) = Ok res.
Proof.
  intros r reads_and_writes_fail.
  destruct (set_and_get_survive_storage_failure json_text
              (always_failing 0) (always_failing 1000) "userProfile"
              (mkConfig (24 * 60 * 60 * 1000) p_high t_critical) "v"
              empty_world eq_refl) as (H1 & H2 & H3 & H4 & _).
  destruct (set_and_get_survive_storage_failure json_text
              (always_failing 0) reads_and_writes_fail "userProfile"
              (mkConfig (24 * 60 * 60 * 1000) p_high t_critical) "v"
              empty_world eq_refl) as (_ & _ & _ & _ & H5).
  split; [exact H1|]. split; [exact (H2 eq_refl)|]. split.
  - apply H4.
    + apply H3. vm_compute. discriminate.
    + vm_compute. discriminate.
  - exact (H5 eq_refl "userProfile" (snd r)).
Defined.

(** C7 on the storage left over, with a key of another component. *)
Lemma clear_empties_cache_namespace_witness :
  let w := construct (ms 1000) left_over in
  fst (clear (ms 1000) w) = Ok tt /\
  memoryCache w <> [] /\
  memorySize (snd (clear (ms 1000) w)) = 0 /\
  storage (snd (clear (ms 1000) w)) !! "gynaid_cache_userProfile" = None /\
  storage (snd (clear (ms 1000) w)) !! "auth_token" = Some (Raw "secret").
Proof.
  assert (H0 : fst (clear (ms 1000) (construct (ms 1000) left_over)) = Ok tt)
    by reflexivity.
  destruct (clear_empties_cache_namespace (ms 1000)
              (construct (ms 1000) left_over) H0) as (_ & H2 & _ & H4).
  split; [exact H0|]. split; [vm_compute; discriminate|].
  split; [exact H2|].
  split; [exact (H4 "gynaid_cache_userProfile") | exact (H4 "auth_token")].
Defined.

(** C8. When the memory cache has nothing fresh under a key and the
    storage holds an unexpired entry for it, [get] writes that entry into
    the memory cache with [Map.set] and does nothing else to the cache:
    every other key stays, and a cache that held [maxMemoryCacheSize]
    entries without the key holds one more afterwards.  The 60 [set]s
    above followed by [get "k00"] are a sequence of calls after which the
    memory cache is above capacity. *)
Theorem get_promotion_runs_no_eviction :
  (forall (T : Type) env key (se : CacheEntry T) (w : World T),
     stale env (Map_get key (memoryCache w)) = true ->
     read_storage env key w = Some se ->
     isExpired env se = false ->
     get env key w =
       (Ok (Some (data se)),
        mkWorld (Map_set key se (memoryCache w)) (storage w)) /\
     (forall k, k <> key ->
        Map_get k (memoryCache (snd (get env key w))) =
        Map_get k (memoryCache w)) /\
     (Map_get key (memoryCache w) = None ->
      memorySize w = maxMemoryCacheSize ->
      memorySize (snd (get env key w)) = maxMemoryCacheSize + 1)) /\
  (exists calls env key,
     let w := run json_text calls empty_world in
     memorySize w = maxMemoryCacheSize /\
     memorySize (snd (get env key w)) = maxMemoryCacheSize + 1).
Proof.
  split.
  - intros T env key se w Hs Hr He. split; [|split].
    + now apply get_promote.
    + intros k Hk. now apply get_other_keys.
    + intros Hm Hsize.
      destruct (get_promotion_grows_memory env key se w Hm Hr He) as [_ H].
      unfold memorySize in *. rewrite H, Hsize. reflexivity.
  - exists (sets 0 60 plain), (ms 5), "k00". vm_compute. split; reflexivity.
Qed.

(** C8 on the run of 60 [set]s: [get "k00"] finds 50 entries and leaves
    51. *)
Lemma get_promotion_runs_no_eviction_witness :
  memorySize after_60_sets = maxMemoryCacheSize /\
  Map_get "k00" (memoryCache after_60_sets) = None /\
  memorySize (snd (get (ms 5) "k00" after_60_sets)) = maxMemoryCacheSize + 1 /\
  Map_get "k10" (memoryCache (snd (get (ms 5) "k00" after_60_sets))) =
    Map_get "k10" (memoryCache after_60_sets).
Proof.
  assert (Hsize : memorySize after_60_sets = maxMemoryCacheSize)
    by (vm_compute; reflexivity).
  assert (Hm : Map_get "k00" (memoryCache after_60_sets) = None)
    by (vm_compute; reflexivity).
  destruct (proj1 get_promotion_runs_no_eviction string (ms 5) "k00"
              (mkEntry "v" 0 (JNum 1000) (Some p_normal) (Some t_normal))
              after_60_sets)
    as (_ & H2 & H3); try (vm_compute; reflexivity).
  split; [exact Hsize|]. split; [exact Hm|].
  split; [exact (H3 Hm Hsize) | apply H2; discriminate].
Defined.

(** C9 (amended) on [labResults], read back thirty years later. *)
Lemma set_without_policy_never_expires_witness :
  cacheConfigs "labResults" = None /\
  let r := set json_text (ms 0) "labResults" "v" None empty_world in
  fst r = Ok tt /\
  Map_get "labResults" (memoryCache (snd r)) =
    Some (mkEntry "v" 0 JNaN None None) /\
  get (ms 946080000000) "labResults" (snd r) = (Ok (Some "v"), snd r).
Proof.
  split; [reflexivity|].
  destruct (set_without_policy_never_expires json_text (ms 0) "labResults"
              "v" empty_world eq_refl)
    as (H1 & _ & _ & _ & _ & _ & H7 & _ & H9).
  assert (Hres : Map_get "labResults"
                   (memoryCache (snd (set json_text (ms 0) "labResults" "v"
                                          None empty_world))) =
                 Some (new_entry (ms 0) "labResults" "v" None)).
  { apply H7. vm_compute. discriminate. }
  split; [exact H1|]. split; [exact Hres|]. apply H9. exact Hres.
Defined.

(** C10 on a memory cache of 50 entries of priority [high] and type
    [critical]: [notifications] is gone from the memory cache when its
    [set] returns, and is in the storage. *)
Lemma set_can_evict_its_own_entry_witness :
  let r := set json_text (ms 0) "notifications" "v" None
               full_of_critical_stored in
  memorySize full_of_critical_stored = 50 /\
  fst r = Ok tt /\
  Map_get "notifications" (memoryCache (snd r)) = None /\
  storage (snd r) !! "gynaid_cache_notifications" =
    Some (Json (mkEntry "v" 0 (JNum 1800000) (Some p_low) (Some t_non_critical))).
Proof.
  assert (Hwf : Map_wf (memoryCache full_of_critical_stored)).
  { apply NoDup_by_decision. vm_compute. reflexivity. }
  assert (Hsize : Map_size (memoryCache full_of_critical_stored) = maxMemoryCacheSize)
    by (vm_compute; reflexivity).
  assert (Hnew : Map_get "notifications" (memoryCache full_of_critical_stored) = None)
    by (vm_compute; reflexivity).
  assert (Hall : forall p, In p (memoryCache full_of_critical_stored) ->
                           exists sp, score (snd p) = Some sp /\ 0 < sp).
  { apply all_score_above. vm_compute. reflexivity. }
  destruct (set_can_evict_its_own_entry json_text (ms 0) "notifications"
              "v" "v" None full_of_critical_stored 0
              Hwf Hsize Hnew eq_refl Hall eq_refl eq_refl)
    as (_ & _ & H3 & H4 & _ & H6).
  split; [exact Hsize|]. split; [exact H3|]. split; [exact H4 | exact H6].
Defined.

(** ** Further properties of the cache *)

Section Namespace.

Lemma append_prefix_inj (p k k' : string) :
  String.append p k = String.append p k' -> k = k'.
Proof.
  induction p as [|a p IH]; simpl; [trivial|].
  intros [= H]. now apply IH.
Qed.

Lemma startsWith_append (p k : string) :
  startsWith (String.append p k) p = true.
Proof.
  unfold startsWith. induction p as [|a p IH]; simpl.
  - now destruct k.
  - destruct (Ascii.ascii_dec a a); [exact IH | contradiction].
Qed.

End Namespace.

Section RemoveTheorems.

Context {T : Type}.
Implicit Types (m : list (string * CacheEntry T)) (k key : string)
         (e : CacheEntry T) (w : World T) (env : Env).

Lemma Map_delete_absent key m :
  Map_get key m = None -> Map_delete key m = m.
Proof.
  intros H. apply filter_every. intros [k e] Hin. simpl.
  apply negb_true_iff. destruct (String.eqb_spec k key) as [->|]; [|reflexivity].
  exfalso. apply Map_get_None in H. apply H.
  change key with (fst (key, e)). now apply in_map.
Qed.

Lemma Map_get_delete_same key m : Map_get key (Map_delete key m) = None.
Proof. rewrite Map_get_delete. now rewrite String.eqb_refl. Qed.

Lemma read_storage_absent env key w :
  storage w !! String.append storagePrefix key = None ->
  read_storage env key w = None.
Proof.
  intros H. unfold read_storage. rewrite H. now destruct (fails env OpGetItem).
Qed.

(** After a [remove] whose storage delete succeeded, the key is in
    neither tier, and [get] returns nothing and changes nothing, whatever
    the storage does during the [get]. *)
Theorem remove_then_get_misses env env' key w :
  fails env OpRemoveItem = false ->
  let w1 := snd (remove env key w) in
  fst (remove env key w) = Ok tt /\
  Map_get key (memoryCache w1) = None /\
  storage w1 !! String.append storagePrefix key = None /\
  get env' key w1 = (Ok None, w1).
Proof.
  intros Hf w1. subst w1. rewrite remove_eq, Hf. simpl.
  assert (Hm : Map_get key (Map_delete key (memoryCache w)) = None)
    by apply Map_get_delete_same.
  assert (Hs : delete (String.append storagePrefix key) (storage w)
               !! String.append storagePrefix key = None)
    by apply lookup_delete_eq.
  repeat split; try assumption.
  apply get_absent; [exact Hm | now apply read_storage_absent].
Qed.

(** A [remove] whose storage delete fails rejects with that failure; it
    has dropped the memory entry and left the storage as it was, so a
    [get] that can read the stored record, still unexpired, returns its
    value and puts it back into the memory cache. *)
Theorem remove_rejected_keeps_stored_record env env' key se w :
  fails env OpRemoveItem = true ->
  read_storage env' key w = Some se ->
  isExpired env' se = false ->
  let w1 := snd (remove env key w) in
  fst (remove env key w) = Rejected (StorageError OpRemoveItem) /\
  Map_get key (memoryCache w1) = None /\
  storage w1 = storage w /\
  fst (get env' key w1) = Ok (Some (data se)) /\
  Map_get key (memoryCache (snd (get env' key w1))) = Some se.
Proof.
  intros Hf Hr He w1. subst w1. rewrite remove_eq, Hf. simpl.
  assert (Hm : Map_get key (Map_delete key (memoryCache w)) = None)
    by apply Map_get_delete_same.
  repeat split; try assumption.
  - rewrite (get_promote env' key se); [reflexivity | simpl; now rewrite Hm | exact Hr | exact He].
  - rewrite (get_promote env' key se); [simpl; apply Map_get_set_eq | simpl; now rewrite Hm | exact Hr | exact He].
Qed.

(** [remove] of a key that neither tier holds changes nothing, and a
    second [remove] after a first changes nothing more. *)
Theorem remove_absent_is_noop env env' key w :
  fails env OpRemoveItem = false ->
  fails env' OpRemoveItem = false ->
  (Map_get key (memoryCache w) = None ->
   storage w !! String.append storagePrefix key = None ->
   remove env key w = (Ok tt, w)) /\
  remove env' key (snd (remove env key w)) = (Ok tt, snd (remove env key w)).
Proof.
  intros Hf Hf'.
  assert (Hnoop : forall w0, Map_get key (memoryCache w0) = None ->
            storage w0 !! String.append storagePrefix key = None ->
            forall env0, fails env0 OpRemoveItem = false ->
            remove env0 key w0 = (Ok tt, w0)).
  { intros [m st] Hm Hs env0 H0. rewrite remove_eq, H0. simpl in *.
    now rewrite (Map_delete_absent key m Hm), (delete_id st _ Hs). }
  split.
  - intros Hm Hs. now apply Hnoop.
  - apply Hnoop; [| | exact Hf']; rewrite remove_eq, Hf; simpl.
    + apply Map_get_delete_same.
    + apply lookup_delete_eq.
Qed.

(** [remove], failing or not, touches no other key: every other key of
    the memory cache keeps its entry and every storage key but the one of
    the removed key keeps its text. *)
Theorem remove_touches_one_key env key w :
  let w1 := snd (remove env key w) in
  (forall k, k <> key -> Map_get k (memoryCache w1) = Map_get k (memoryCache w)) /\
  (forall sk, sk <> String.append storagePrefix key ->
              storage w1 !! sk = storage w !! sk) /\
  (forall k, k <> key ->
             storage w1 !! String.append storagePrefix k =
             storage w !! String.append storagePrefix k).
Proof.
  intros w1. subst w1. rewrite remove_eq.
  assert (Hm : forall k, k <> key ->
            Map_get k (Map_delete key (memoryCache w)) = Map_get k (memoryCache w)).
  { intros k Hk. rewrite Map_get_delete.
    destruct (String.eqb_spec k key); [contradiction | reflexivity]. }
  assert (Hs : forall sk, sk <> String.append storagePrefix key ->
            (if fails env OpRemoveItem then storage w
             else delete (String.append storagePrefix key) (storage w)) !! sk
            = storage w !! sk).
  { intros sk Hsk. destruct (fails env OpRemoveItem); [reflexivity|].
    apply lookup_delete_ne. congruence. }
  destruct (fails env OpRemoveItem) eqn:Hf; simpl; (split; [exact Hm|]);
    (split; [exact Hs|]); intros k Hk; apply Hs; intros Heq;
    apply Hk; now apply (append_prefix_inj storagePrefix).
Qed.

End RemoveTheorems.

Section GetTheorems.

Context {T : Type}.
Implicit Types (m : list (string * CacheEntry T)) (k key : string)
         (e : CacheEntry T) (w : World T) (env : Env).

(** Once [get] has returned a value, a [get] of the same key at the same
    clock reading returns the same value from the memory cache and changes
    nothing, whatever the storage does: a promotion makes the next read a
    memory hit. *)
Theorem get_value_is_repeatable env env' key d w w1 :
  get env key w = (Ok (Some d), w1) ->
  now env' = now env ->
  (exists e, Map_get key (memoryCache w1) = Some e /\ data e = d /\
             isExpired env e = false) /\
  get env' key w1 = (Ok (Some d), w1).
Proof.
  intros Hget Hnow.
  assert (Hexp : forall e, isExpired env' e = isExpired env e).
  { intros e. unfold isExpired. now rewrite Hnow. }
  assert (Hres : exists e, Map_get key (memoryCache w1) = Some e /\ data e = d /\
                           isExpired env e = false).
  { rewrite get_eq in Hget.
    assert (Htier : forall me,
              get_from_storage_tier env key me w = (Ok (Some d), w1) ->
              exists e, Map_get key (memoryCache w1) = Some e /\ data e = d /\
                        isExpired env e = false).
    { intros me. rewrite get_from_storage_tier_eq. unfold removed_miss.
      destruct (read_storage env key w) as [se|].
      - destruct (isExpired env se) eqn:Hse; simpl.
        + destruct (fails env OpRemoveItem); discriminate.
        + intros [= <- <-]. exists se. simpl.
          split; [apply Map_get_set_eq | now split].
      - destruct me; [destruct (fails env OpRemoveItem)|]; discriminate. }
    destruct (Map_get key (memoryCache w)) as [e|] eqn:Hm;
      [|exact (Htier _ Hget)].
    destruct (isExpired env e) eqn:He; simpl in Hget; [exact (Htier _ Hget)|].
    injection Hget as <- <-. exists e. now repeat split. }
  split; [exact Hres|].
  destruct Hres as (e & Hm & <- & He).
  apply get_memory_hit; [exact Hm | now rewrite Hexp].
Qed.

(** After a [get] that missed (it found no unexpired entry in either
    tier; a hit on an entry whose payload is [null] is no miss), the
    memory cache does not hold the key, and a [get] in the same
    environment misses again and changes nothing. *)
Theorem get_miss_is_stable env key w :
  fst (get env key w) = Ok None ->
  let w1 := snd (get env key w) in
  Map_get key (memoryCache w1) = None /\
  get env key w1 = (Ok None, w1).
Proof.
  intros Hget w1. subst w1.
  assert (Hgoal : forall w1, Map_get key (memoryCache w1) = None ->
            read_storage env key w1 = None ->
            Map_get key (memoryCache w1) = None /\ get env key w1 = (Ok None, w1)).
  { intros w1 Hm Hr. split; [exact Hm | now apply get_absent]. }
  assert (Hrem : fails env OpRemoveItem = false ->
            Map_get key (memoryCache (snd (removed_miss env key w))) = None /\
            get env key (snd (removed_miss env key w)) =
              (Ok None, snd (removed_miss env key w))).
  { intros Hf. unfold removed_miss. rewrite Hf.
    apply (Hgoal (mkWorld (Map_delete key (memoryCache w))
                          (delete (String.append storagePrefix key) (storage w)))).
    - apply Map_get_delete_same.
    - apply read_storage_absent. simpl. apply lookup_delete_eq. }
  assert (Htier : forall me,
            (me = None -> Map_get key (memoryCache w) = None) ->
            fst (get_from_storage_tier env key me w) = Ok None ->
            Map_get key (memoryCache (snd (get_from_storage_tier env key me w))) = None /\
            get env key (snd (get_from_storage_tier env key me w)) =
              (Ok None, snd (get_from_storage_tier env key me w))).
  { intros me Hme. rewrite get_from_storage_tier_eq.
    destruct (read_storage env key w) as [se|] eqn:Hr.
    - destruct (negb (isExpired env se)); [discriminate|].
      intros H. apply Hrem. unfold removed_miss in H.
      now destruct (fails env OpRemoveItem).
    - destruct me as [e0|].
      + intros H. apply Hrem. unfold removed_miss in H.
        now destruct (fails env OpRemoveItem).
      + intros _. apply Hgoal; [now apply Hme | exact Hr]. }
  rewrite get_eq in *.
  destruct (Map_get key (memoryCache w)) as [e|] eqn:Hm.
  - destruct (negb (isExpired env e)); [discriminate|].
    apply Htier; [discriminate | exact Hget].
  - apply Htier; [trivial | exact Hget].
Qed.

(** When [get] rejects, the rejection is the one of
    [AsyncStorage.removeItem]; the key has already left the memory cache
    and the storage is as it was. *)
Theorem get_rejection_is_removeItem env key w err :
  fst (get env key w) = Rejected err ->
  err = StorageError OpRemoveItem /\
  fails env OpRemoveItem = true /\
  memoryCache (snd (get env key w)) = Map_delete key (memoryCache w) /\
  storage (snd (get env key w)) = storage w.
Proof.
  assert (Hrem : fst (removed_miss env key w) = Rejected err ->
            err = StorageError OpRemoveItem /\
            fails env OpRemoveItem = true /\
            memoryCache (snd (removed_miss env key w)) = Map_delete key (memoryCache w) /\
            storage (snd (removed_miss env key w)) = storage w).
  { unfold removed_miss. destruct (fails env OpRemoveItem); simpl; [|discriminate].
    intros [= <-]. now repeat split. }
  assert (Htier : forall me,
            fst (get_from_storage_tier env key me w) = Rejected err ->
            err = StorageError OpRemoveItem /\
            fails env OpRemoveItem = true /\
            memoryCache (snd (get_from_storage_tier env key me w)) =
              Map_delete key (memoryCache w) /\
            storage (snd (get_from_storage_tier env key me w)) = storage w).
  { intros me. rewrite get_from_storage_tier_eq.
    destruct (read_storage env key w) as [se|].
    - destruct (negb (isExpired env se)); [discriminate | exact Hrem].
    - destruct me; [exact Hrem | discriminate]. }
  rewrite get_eq.
  destruct (Map_get key (memoryCache w)) as [e|]; [|apply Htier].
  destruct (negb (isExpired env e)); [discriminate | apply Htier].
Qed.

End GetTheorems.

Section SetTheorems.

Context {T : Type} (json_data : T -> option T).
Implicit Types (m : list (string * CacheEntry T)) (k key : string)
         (e : CacheEntry T) (w : World T) (env : Env).

(** [set] writes at most one storage key, the one of its own key, and
    deletes none; in the memory cache it changes no entry of another key,
    which it can only evict, and without an eviction every other key
    keeps its entry. *)
Theorem set_touches_one_key env key (d : T) cc w :
  let w1 := snd (set json_data env key d cc w) in
  (forall sk, sk <> String.append storagePrefix key ->
              storage w1 !! sk = storage w !! sk) /\
  (forall sk, storage w !! sk <> None -> storage w1 !! sk <> None) /\
  (forall k e', k <> key -> Map_get k (memoryCache w1) = Some e' ->
                Map_get k (memoryCache w) = Some e') /\
  (Map_size (Map_set key (new_entry env key d cc) (memoryCache w))
     <= maxMemoryCacheSize ->
   forall k, k <> key -> Map_get k (memoryCache w1) = Map_get k (memoryCache w)).
Proof.
  intros w1. subst w1. rewrite set_eq. simpl.
  assert (Hst : forall sk,
            storage_after_set json_data env key d cc (storage w) !! sk =
            storage w !! sk \/
            (sk = String.append storagePrefix key /\
             storage_after_set json_data env key d cc (storage w) !! sk <> None)).
  { intros sk. unfold storage_after_set.
    destruct (json_entry _ _) as [e|]; [|now left].
    destruct (fails env OpSetItem); [now left|].
    destruct (decide (String.append storagePrefix key = sk)) as [<-|Hne].
    - right. split; [reflexivity|]. now rewrite lookup_insert_eq.
    - left. now apply lookup_insert_ne. }
  repeat split.
  - intros sk Hsk. destruct (Hst sk) as [H|[H _]]; [exact H | contradiction].
  - intros sk Hsome. destruct (Hst sk) as [H|[_ H]]; [now rewrite H | exact H].
  - intros k e' Hk. unfold memory_after_set.
    destruct (maxMemoryCacheSize <? _).
    + unfold evicted. rewrite Map_get_delete_all.
      destruct (existsb _ _); [discriminate|].
      rewrite Map_get_set_ne by congruence. trivial.
    + rewrite Map_get_set_ne by congruence. trivial.
  - intros Hsize k Hk. unfold memory_after_set.
    destruct (Z.ltb_spec maxMemoryCacheSize
                (Map_size (Map_set key (new_entry env key d cc) (memoryCache w))));
      [lia|].
    apply Map_get_set_ne. congruence.
Qed.

Lemma new_entry_with_window env key (d : T) cc a :
  spread_maxAge (spread (cacheConfigs key) cc) = Some a ->
  new_entry env key d cc =
  mkEntry d (now env) (JNum (now env + a))
          (spread_priority (spread (cacheConfigs key) cc))
          (spread_type (spread (cacheConfigs key) cc)).
Proof. intros H. unfold new_entry. now rewrite H. Qed.

(** [set] then [get] when the spread object has the window [a]. *)
Lemma set_then_get_window env0 env1 key cc a (v : T) w :
  spread_maxAge (spread (cacheConfigs key) cc) = Some a ->
  json_data v = Some v ->
  fails env0 OpSetItem = false ->
  fails env1 OpGetItem = false ->
  fails env1 OpRemoveItem = false ->
  let w1 := snd (set json_data env0 key v cc w) in
  (now env1 <= now env0 + a -> fst (get env1 key w1) = Ok (Some v)) /\
  (now env0 + a < now env1 -> fst (get env1 key w1) = Ok None).
Proof.
  intros Ha Hj Hw Hr Hd w1. subst w1. rewrite set_eq. simpl.
  set (e := new_entry env0 key v cc).
  set (m1 := memory_after_set env0 key v cc (memoryCache w)).
  set (st1 := storage_after_set json_data env0 key v cc (storage w)).
  assert (He : e = mkEntry v (now env0) (JNum (now env0 + a))
                           (spread_priority (spread (cacheConfigs key) cc))
                           (spread_type (spread (cacheConfigs key) cc))).
  { now apply new_entry_with_window. }
  assert (Hst : st1 !! String.append storagePrefix key = Some (Json e)).
  { unfold st1, storage_after_set, json_entry. fold e. rewrite He. simpl.
    rewrite Hj, Hw. apply lookup_insert_eq. }
  assert (Hread : read_storage env1 key (mkWorld m1 st1) = Some e).
  { unfold read_storage. simpl. now rewrite Hr, Hst. }
  assert (Hexp : isExpired env1 e = (now env0 + a <? now env1)).
  { now rewrite He. }
  pose proof (memory_after_set_lookup env0 key v cc (memoryCache w)) as Hm.
  fold m1 e in Hm.
  split.
  - intros Ht.
    assert (Hfresh : isExpired env1 e = false).
    { rewrite Hexp. now apply Z.ltb_ge. }
    destruct Hm as [Hm|Hm].
    + now rewrite (get_memory_hit _ key _ (mkWorld m1 st1) Hm Hfresh).
    + rewrite (get_promote _ key e (mkWorld m1 st1));
        [reflexivity | simpl; now rewrite Hm | apply Hread | exact Hfresh].
  - intros Ht.
    assert (Hold : isExpired env1 e = true).
    { rewrite Hexp. now apply Z.ltb_lt. }
    rewrite (get_expired _ key (mkWorld m1 st1)); simpl; try reflexivity.
    + destruct Hm as [Hm|Hm]; rewrite Hm; [exact Hold | reflexivity].
    + rewrite Hread. exact Hold.
    + right. now rewrite Hread.
    + exact Hd.
Qed.

(** The window of an entry is the [maxAge] of the override when the
    override has that property with a value, whatever the policy table
    says, and the one of the table when the override lacks the property.
    With a payload that JSON writes and reads back unchanged, a write that
    succeeds during the [set] and a read and a delete that succeed during
    the [get]: [get] returns the value up to and including the instant
    [now + maxAge] and nothing after it (at once, when [maxAge] is
    negative).  An override that has [maxAge] with the value [undefined]
    replaces the table's window too: the entry has [expiresAt = NaN], is
    never expired, and [get] returns its value at every time while the
    memory cache holds it. *)
Theorem set_then_get_with_override env0 env1 key cc (v : T) w :
  json_data v = Some v ->
  fails env0 OpSetItem = false ->
  fails env1 OpGetItem = false ->
  fails env1 OpRemoveItem = false ->
  let w1 := snd (set json_data env0 key v cc w) in
  let window := fun a : Z =>
    (now env1 <= now env0 + a -> fst (get env1 key w1) = Ok (Some v)) /\
    (now env0 + a < now env1 -> fst (get env1 key w1) = Ok None) in
  (forall c a, cc = Some c -> opt_maxAge c = Present a -> window a) /\
  (forall cfg, cacheConfigs key = Some cfg ->
               (forall c, cc = Some c -> opt_maxAge c = Absent) ->
               window (maxAge cfg)) /\
  (forall c, cc = Some c -> opt_maxAge c = Undefined ->
     expiresAt (new_entry env0 key v cc) = JNaN /\
     (forall env', isExpired env' (new_entry env0 key v cc) = false) /\
     (Map_get key (memoryCache w1) = Some (new_entry env0 key v cc) ->
      forall env', get env' key w1 = (Ok (Some v), w1))).
Proof.
  intros Hj Hw Hr Hd w1 window. subst w1 window. cbv beta.
  split; [|split].
  - intros c a -> Hc.
    apply set_then_get_window; try assumption.
    unfold spread. simpl. now rewrite Hc.
  - intros cfg Hcfg Hnone.
    apply set_then_get_window; try assumption.
    rewrite Hcfg. unfold spread.
    destruct cc as [c|]; simpl; [|reflexivity].
    now rewrite (Hnone c eq_refl).
  - intros c -> Hc.
    assert (HNaN : expiresAt (new_entry env0 key v (Some c)) = JNaN).
    { unfold new_entry, spread. simpl. now rewrite Hc. }
    split; [exact HNaN|]. split.
    + intros env'. unfold isExpired. now rewrite HNaN.
    + intros Hm env'. rewrite (get_memory_hit env' key _ _ Hm); [reflexivity|].
      unfold isExpired. now rewrite HNaN.
Qed.

Lemma cacheConfigs_table_bounds key cfg :
  cacheConfigs key = Some cfg ->
  1800000 <= maxAge cfg <= 86400000 /\
  priorityOrder (cfg_priority cfg) = typeOrder (cfg_type cfg).
Proof.
  cbv [cacheConfigs cacheConfigs_table assoc].
  repeat (destruct (String.eqb _ key);
          [intros [= <-]; simpl; split; [lia | reflexivity]|]).
  discriminate.
Qed.

(** For every key of the policy table, the entry a [set] without
    override builds expires between 30 minutes and 24 hours after its
    timestamp, is not expired when it is built, and has an even score
    (0, 2 or 4): the rank of its priority is the rank of its type. *)
Theorem policy_entry_is_born_fresh env key cfg (v : T) :
  cacheConfigs key = Some cfg ->
  let e := new_entry env key v None in
  timestamp e = now env /\
  (exists x, expiresAt e = JNum x /\
             timestamp e + 1800000 <= x <= timestamp e + 86400000) /\
  isExpired env e = false /\
  (exists s, score e = Some s /\ (s = 0 \/ s = 2 \/ s = 4)).
Proof.
  intros Hcfg e. subst e. rewrite (new_entry_configured env key cfg v Hcfg).
  destruct (cacheConfigs_table_bounds key cfg Hcfg) as [Hage Hrank].
  simpl. repeat split.
  - exists (now env + maxAge cfg). split; [reflexivity | lia].
  - unfold isExpired. simpl. apply Z.ltb_ge. lia.
  - unfold score. simpl. eexists. split; [reflexivity|].
    rewrite Hrank. destruct (cfg_type cfg); simpl; auto.
Qed.

(** The stored copy of an entry written without policy and without
    override has [expiresAt = null].  Once the memory cache no longer
    holds the key, a [get] at any positive clock reading finds that copy
    expired, returns nothing and deletes it. *)
Theorem stored_copy_without_policy_reads_expired env env' key (v : T) w :
  cacheConfigs key = None ->
  json_data v = Some v ->
  fails env OpSetItem = false ->
  let stored := mkEntry v (now env) JNull None None in
  storage (snd (set json_data env key v None w))
    !! String.append storagePrefix key = Some (Json stored) /\
  (forall w' : World T,
     Map_get key (memoryCache w') = None ->
     storage w' !! String.append storagePrefix key = Some (Json stored) ->
     0 < now env' ->
     fails env' OpGetItem = false ->
     fails env' OpRemoveItem = false ->
     get env' key w' =
     (Ok None,
      mkWorld (memoryCache w')
              (delete (String.append storagePrefix key) (storage w')))).
Proof.
  intros Hcfg Hj Hw stored. split.
  - rewrite set_eq. simpl. unfold storage_after_set, json_entry.
    rewrite (new_entry_unconfigured env key v Hcfg). simpl.
    rewrite Hj, Hw. apply lookup_insert_eq.
  - intros w' Hm Hs Hpos Hr Hd.
    assert (Hread : read_storage env' key w' = Some stored).
    { unfold read_storage. now rewrite Hr, Hs. }
    rewrite (get_expired env' key w'); [| | | | exact Hd].
    + now rewrite (Map_delete_absent key _ Hm).
    + now rewrite Hm.
    + rewrite Hread. unfold stored, isExpired. simpl. now apply Z.ltb_lt.
    + right. now rewrite Hread.
Qed.

End SetTheorems.

Section ClearTheorems.

Context {T : Type}.
Implicit Types (m : list (string * CacheEntry T)) (k key : string)
         (e : CacheEntry T) (w : World T) (env : Env)
         (st : gmap string (Stored T)).

Lemma cleared_storage_lookup st sk :
  foldr delete st
        (List.filter (fun key => startsWith key storagePrefix)
                     (map fst (map_to_list st))) !! sk =
  if startsWith sk storagePrefix then None else st !! sk.
Proof.
  rewrite lookup_foldr_delete.
  destruct (existsb _ _) eqn:E.
  - apply existsb_eqb_In, filter_In in E as [_ ->]. reflexivity.
  - destruct (startsWith sk storagePrefix) eqn:Hp; [|reflexivity].
    destruct (st !! sk) eqn:Hk; [|reflexivity].
    exfalso. apply not_true_iff_false in E. apply E.
    apply existsb_eqb_In, filter_In. split; [|exact Hp].
    apply In_storage_keys. congruence.
Qed.

(** After a [clear] that returned, [get] of any key returns nothing and
    changes nothing, whatever the clock and the storage do. *)
Theorem clear_then_every_get_misses env env' key w :
  fst (clear env w) = Ok tt ->
  get env' key (snd (clear env w)) = (Ok None, snd (clear env w)).
Proof.
  rewrite clear_eq.
  destruct (fails env OpGetAllKeys); [discriminate|].
  destruct (fails env OpMultiRemove); [discriminate|].
  intros _. simpl. apply get_absent; [reflexivity|].
  apply read_storage_absent. simpl.
  now rewrite cleared_storage_lookup, startsWith_append.
Qed.

(** [clear] returns normally exactly when neither [getAllKeys] nor
    [multiRemove] fails.  When it rejects, the memory cache is empty all
    the same and the storage is as it was, so that a [get] of a key whose
    stored record is readable and unexpired still returns its value. *)
Theorem clear_rejects_iff_storage_call_fails env w :
  (fst (clear env w) = Ok tt <->
   fails env OpGetAllKeys = false /\ fails env OpMultiRemove = false) /\
  (fst (clear env w) <> Ok tt ->
   memoryCache (snd (clear env w)) = [] /\
   storage (snd (clear env w)) = storage w /\
   forall env' key se,
     read_storage env' key w = Some se ->
     isExpired env' se = false ->
     fst (get env' key (snd (clear env w))) = Ok (Some (data se))).
Proof.
  rewrite clear_eq. split.
  - destruct (fails env OpGetAllKeys); [split; [discriminate | intros [H _]; discriminate]|].
    destruct (fails env OpMultiRemove); [split; [discriminate | intros [_ H]; discriminate]|].
    split; [now split | reflexivity].
  - assert (Hget : forall env' key se,
              read_storage env' key w = Some se ->
              isExpired env' se = false ->
              fst (get env' key (mkWorld [] (storage w))) = Ok (Some (data se))).
    { intros env' key se Hr He.
      now rewrite (get_promote env' key se (mkWorld [] (storage w))). }
    destruct (fails env OpGetAllKeys); [intros _; simpl; now repeat split|].
    destruct (fails env OpMultiRemove); [intros _; simpl; now repeat split|].
    simpl. contradiction.
Qed.

End ClearTheorems.

Section SweepTheorems.

Context {T : Type}.
Implicit Types (m : list (string * CacheEntry T)) (k key : string)
         (e : CacheEntry T) (w : World T) (env : Env)
         (st : gmap string (Stored T)).

Lemma lookup_fold_left_delete st (ks : list string) sk :
  fold_left (fun acc k => delete (String.append storagePrefix k) acc) ks st !! sk =
  if existsb (fun k => String.eqb sk (String.append storagePrefix k)) ks
  then None else st !! sk.
Proof.
  revert st. induction ks as [|k ks IH]; intros st; simpl; [reflexivity|].
  rewrite IH. destruct (String.eqb_spec sk (String.append storagePrefix k)) as [->|Hne]; simpl.
  - rewrite lookup_delete_eq. now destruct (existsb _ _).
  - rewrite lookup_delete_ne by congruence. reflexivity.
Qed.

Lemma for_each_cons {A} (f : A -> M T unit) (x : A) (l : list A) w :
  for_each (x :: l) f w =
  match f x w with
  | (Ok _, w') => for_each l f w'
  | (Rejected err, w') => (Rejected err, w')
  end.
Proof. reflexivity. Qed.

Lemma sweep_step env key w :
  bind get_memory
       (fun m' =>
          bind (put_memory (Map_delete key m'))
               (fun _ => removeItem env (String.append storagePrefix key)))
       w =
  if fails env OpRemoveItem
  then (Rejected (StorageError OpRemoveItem),
        mkWorld (Map_delete key (memoryCache w)) (storage w))
  else (Ok tt, mkWorld (Map_delete key (memoryCache w))
                       (delete (String.append storagePrefix key) (storage w))).
Proof.
  unfold bind, get_memory, put_memory, removeItem. simpl.
  now destruct (fails env OpRemoveItem).
Qed.

(** The loop of [performCleanup] when [removeItem] does not fail. *)
Lemma sweep_loop env (ks : list string) w :
  fails env OpRemoveItem = false ->
  for_each ks
    (fun key =>
       bind get_memory
            (fun m' =>
               bind (put_memory (Map_delete key m'))
                    (fun _ => removeItem env (String.append storagePrefix key))))
    w =
  (Ok tt,
   mkWorld (delete_all ks (memoryCache w))
           (fold_left (fun acc k => delete (String.append storagePrefix k) acc)
                      ks (storage w))).
Proof.
  intros Hf. revert w. induction ks as [|k ks IH]; intros w.
  - simpl. unfold ret. now destruct w.
  - rewrite for_each_cons. cbv beta. rewrite sweep_step, Hf, IH. reflexivity.
Qed.

Lemma expired_key_iff env m k :
  Map_wf m ->
  In k (map fst (List.filter (fun p => isExpired env (snd p)) m)) <->
  exists e, Map_get k m = Some e /\ isExpired env e = true.
Proof.
  intros Hwf. rewrite in_map_iff. split.
  - intros [[k' e] [Hk Hin]]. simpl in Hk. subst k'.
    apply filter_In in Hin as [Hin He]. exists e. split; [|exact He].
    now apply In_Map_get.
  - intros [e [Hm He]]. exists (k, e). split; [reflexivity|].
    apply filter_In. split; [now apply Map_get_In | exact He].
Qed.

(** A sweep in which [removeItem] does not fail returns normally and
    leaves in the memory cache exactly the entries that are not expired,
    in their order.  It deletes the stored record of every key whose
    memory entry was expired, and leaves every other cache key's record
    (also an expired one that the memory cache did not hold) and every
    key outside the cache namespace as they were. *)
Theorem performCleanup_removes_exactly_expired env w :
  fails env OpRemoveItem = false ->
  Map_wf (memoryCache w) ->
  let w1 := snd (performCleanup env w) in
  fst (performCleanup env w) = Ok tt /\
  memoryCache w1 =
    List.filter (fun p => negb (isExpired env (snd p))) (memoryCache w) /\
  (forall k e, Map_get k (memoryCache w) = Some e -> isExpired env e = true ->
               storage w1 !! String.append storagePrefix k = None) /\
  (forall k, (forall e, Map_get k (memoryCache w) = Some e ->
                        isExpired env e = false) ->
             storage w1 !! String.append storagePrefix k =
             storage w !! String.append storagePrefix k) /\
  (forall sk, startsWith sk storagePrefix = false ->
              storage w1 !! sk = storage w !! sk).
Proof.
  intros Hf Hwf w1. subst w1.
  rewrite performCleanup_eq, (sweep_loop env _ w Hf). simpl.
  set (ks := map fst (List.filter (fun p => isExpired env (snd p)) (memoryCache w))).
  assert (Hks : forall k, In k ks <->
            exists e, Map_get k (memoryCache w) = Some e /\ isExpired env e = true).
  { intros k. now apply expired_key_iff. }
  assert (Hex : forall k,
            existsb (fun k0 => String.eqb (String.append storagePrefix k)
                                          (String.append storagePrefix k0)) ks = true
            <-> In k ks).
  { intros k. rewrite existsb_exists. split.
    - intros [k0 [Hin Heq]]. apply String.eqb_eq, append_prefix_inj in Heq.
      now subst k0.
    - intros Hin. exists k. split; [exact Hin | apply String.eqb_refl]. }
  split; [reflexivity|]. split; [|split; [|split]].
  - rewrite delete_all_filter. apply filter_ext_in. intros [k e] Hin.
    unfold kept. simpl. f_equal.
    destruct (isExpired env e) eqn:He.
    + apply existsb_eqb_In, Hks. exists e. split; [now apply In_Map_get | exact He].
    + apply not_true_iff_false. intros Hin'%existsb_eqb_In%Hks.
      destruct Hin' as (e' & Hm & He').
      rewrite (In_Map_get k e _ Hwf Hin) in Hm. congruence.
  - intros k e Hm He. rewrite lookup_fold_left_delete.
    replace (existsb _ ks) with true; [reflexivity|].
    symmetry. apply Hex, Hks. eauto.
  - intros k Hfresh. rewrite lookup_fold_left_delete.
    destruct (existsb _ ks) eqn:E; [|reflexivity].
    apply Hex, Hks in E as (e & Hm & He).
    rewrite (Hfresh e Hm) in He. discriminate.
  - intros sk Hsk. rewrite lookup_fold_left_delete.
    destruct (existsb _ ks) eqn:E; [|reflexivity].
    apply existsb_exists in E as (k0 & _ & ->%String.eqb_eq).
    rewrite startsWith_append in Hsk. discriminate.
Qed.

(** A sweep that finds no expired entry in the memory cache returns
    normally and changes nothing, whatever the storage does.  A sweep in
    which [removeItem] fails stops at the first expired entry: it
    rejects, that one key has left the memory cache, and the storage and
    the other expired entries are as they were. *)
Theorem performCleanup_stops_at_first_failure env w :
  (List.filter (fun p => isExpired env (snd p)) (memoryCache w) = [] ->
   performCleanup env w = (Ok tt, w)) /\
  (fails env OpRemoveItem = true ->
   forall k e rest,
     List.filter (fun p => isExpired env (snd p)) (memoryCache w)
       = (k, e) :: rest ->
     performCleanup env w =
     (Rejected (StorageError OpRemoveItem),
      mkWorld (Map_delete k (memoryCache w)) (storage w))).
Proof.
  rewrite performCleanup_eq. split.
  - intros ->. simpl. unfold ret. now destruct w.
  - intros Hf k e rest ->.
    change (map fst ((k, e) :: rest)) with (k :: map fst rest).
    rewrite for_each_cons. cbv beta. now rewrite sweep_step, Hf.
Qed.

(** After a sweep in which [removeItem] did not fail, a second sweep at
    the same clock reading changes nothing and returns normally, whatever
    the storage does then. *)
Theorem performCleanup_twice env env' w :
  fails env OpRemoveItem = false ->
  Map_wf (memoryCache w) ->
  now env' = now env ->
  performCleanup env' (snd (performCleanup env w)) =
  (Ok tt, snd (performCleanup env w)).
Proof.
  intros Hf Hwf Hnow.
  rewrite (performCleanup_eq env w), (sweep_loop env _ w Hf). simpl.
  rewrite performCleanup_eq. simpl.
  replace (List.filter (fun p => isExpired env' (snd p)) _) with
    (@nil (string * CacheEntry T)); [reflexivity|].
  symmetry. apply filter_none. intros [k e] Hin. simpl.
  rewrite delete_all_filter in Hin. apply filter_In in Hin as [Hin Hkept].
  unfold kept in Hkept. simpl in Hkept. apply negb_true_iff in Hkept.
  destruct (isExpired env' e) eqn:He; [|reflexivity].
  apply not_true_iff_false in Hkept. exfalso. apply Hkept.
  apply existsb_eqb_In, expired_key_iff; [exact Hwf|].
  exists e. split; [now apply In_Map_get|].
  unfold isExpired in *. now rewrite <- Hnow.
Qed.

End SweepTheorems.

Section EvictionOrder.

Context {T : Type}.
Implicit Types (m l : list (string * CacheEntry T)) (k key : string)
         (e : CacheEntry T) (w : World T) (env : Env).

Lemma sort_of_sorted l :
  StronglySorted (fun a b => sortCompare a b <= 0) l -> sort l = l.
Proof.
  induction 1 as [|x l Hs IH Hall]; simpl; [reflexivity|].
  rewrite IH. destruct l as [|y l]; simpl; [reflexivity|].
  apply Forall_cons in Hall as [Hxy _].
  destruct (Z.leb_spec (sortCompare x y) 0); [reflexivity | lia].
Qed.

Lemma ties_are_sorted l :
  (forall p q, In p l -> In q l -> score (snd p) = score (snd q)) ->
  StronglySorted (fun a b => sortCompare a b <= 0) l.
Proof.
  induction l as [|x l IH]; intros H; constructor.
  - apply IH. intros p q Hp Hq. apply H; now right.
  - apply Forall_forall. intros y Hy%list_elem_of_In.
    unfold sortCompare, comparefn.
    rewrite (H x y (or_introl eq_refl) (or_intror Hy)).
    destruct (score (snd y)); lia.
Qed.

(** The sort is stable: in a memory cache whose entries are already in
    non-decreasing order of score, in particular when all scores tie,
    the eviction removes the entries that were inserted first, at most 10,
    and keeps the others in their order. *)
Theorem eviction_breaks_ties_by_insertion_order m :
  Map_wf m ->
  (StronglySorted (fun a b => sortCompare a b <= 0) m \/
   forall p q, In p m -> In q m -> score (snd p) = score (snd q)) ->
  victims m = firstn 10 m /\ evicted m = skipn 10 m.
Proof.
  intros Hwf Hsorted.
  assert (Hs : sort m = m).
  { apply sort_of_sorted. destruct Hsorted as [H|H]; [exact H | now apply ties_are_sorted]. }
  assert (Hv : victims m = firstn 10 m).
  { unfold victims. now rewrite Hs, toRemove_eq. }
  split; [exact Hv|].
  unfold evicted. rewrite Hv, delete_all_filter.
  set (ks := map fst (firstn 10 m)).
  assert (Hnd : NoDup (map fst (firstn 10 m) ++ map fst (skipn 10 m))).
  { now rewrite <- map_app, firstn_skipn. }
  apply NoDup_app in Hnd as (_ & Hdisj & _).
  rewrite <- (firstn_skipn 10 m) at 1. rewrite List.filter_app.
  rewrite filter_none, filter_every; [reflexivity | |].
  - intros a Ha. unfold kept. apply negb_true_iff.
    destruct (existsb (String.eqb (fst a)) ks) eqn:E; [|reflexivity].
    apply existsb_eqb_In in E. exfalso.
    apply (Hdisj (fst a)); apply list_elem_of_In; [exact E|].
    now apply in_map.
  - intros a Ha. unfold kept. apply negb_false_iff, existsb_eqb_In.
    now apply in_map.
Qed.

End EvictionOrder.

Section StartAndStop.

Context {T : Type}.
Implicit Types (m : list (string * CacheEntry T)) (k key : string)
         (e : CacheEntry T) (w : World T) (env : Env)
         (st : gmap string (Stored T)).

Lemma for_each_preserves_in {A} (P : World T -> Prop) (f : A -> M T unit)
      (l : list A) w :
  (forall x w0, In x l -> P w0 -> P (snd (f x w0))) ->
  P w -> P (snd (for_each l f w)).
Proof.
  revert w. induction l as [|x l IH]; intros w Hf Hw; simpl; [exact Hw|].
  unfold bind. pose proof (Hf x w (or_introl eq_refl) Hw) as Hx.
  destruct (f x w) as [[[]|err] w0]; simpl in *; [|exact Hx].
  apply IH; [|exact Hx]. intros y w1 Hy. apply Hf. now right.
Qed.

(** After the constructor has run over any storage, the storage is as it
    was and the memory cache holds at most three entries; each of them is
    under one of the three critical keys, has priority [high] and type
    [critical], and is the record the storage holds for its key with only
    those two fields replaced. *)
Theorem construct_holds_only_critical_records env st :
  let w := construct env st in
  storage w = st /\
  Map_wf (memoryCache w) /\
  memorySize w <= 3 /\
  forall k e, Map_get k (memoryCache w) = Some e ->
    In k criticalKeys /\
    priority e = Some p_high /\ type e = Some t_critical /\
    exists e0, st !! String.append storagePrefix k = Some (Json e0) /\
               e = as_critical e0.
Proof.
  intros w. subst w. unfold construct, warmupCriticalCache.
  set (P := fun w0 : World T =>
         storage w0 = st /\
         Map_wf (memoryCache w0) /\
         forall k e, Map_get k (memoryCache w0) = Some e ->
           In k criticalKeys /\
           priority e = Some p_high /\ type e = Some t_critical /\
           exists e0, st !! String.append storagePrefix k = Some (Json e0) /\
                      e = as_critical e0).
  assert (HP : P (snd (for_each criticalKeys (warmup_key env) (mkWorld [] st)))).
  { apply for_each_preserves_in.
    - intros key w0 Hkey (Hst & Hwf & Hall). rewrite warmup_key_eq. simpl.
      destruct (read_storage env key w0) as [e0|] eqn:Hr;
        [|exact (conj Hst (conj Hwf Hall))].
      assert (Hs0 : st !! String.append storagePrefix key = Some (Json e0)).
      { unfold read_storage in Hr. rewrite Hst in Hr.
        destruct (fails env OpGetItem); [discriminate|].
        destruct (st !! _) as [[e1|s]|]; try discriminate. now injection Hr as ->. }
      split; [exact Hst|]. split; [now apply Map_set_wf|].
      intros k e. simpl. destruct (String.eqb_spec key k) as [<-|Hne].
      + rewrite Map_get_set_eq. intros [= <-].
        split; [exact Hkey|]. split; [reflexivity|]. split; [reflexivity|].
        now exists e0.
      + rewrite Map_get_set_ne by exact Hne. apply Hall.
    - split; [reflexivity|]. split; [constructor|]. intros k e. discriminate. }
  destruct HP as (Hst & Hwf & Hall).
  split; [exact Hst|]. split; [exact Hwf|]. split; [|exact Hall].
  unfold memorySize, Map_size. rewrite <- (length_map fst).
  assert (Hsub : map fst (memoryCache
            (snd (for_each criticalKeys (warmup_key env) (mkWorld [] st))))
          ⊆+ criticalKeys).
  { apply NoDup_submseteq; [exact Hwf|].
    intros k Hk%list_elem_of_In. apply list_elem_of_In.
    apply in_map_iff in Hk as [[k' e] [Hfst Hin]]. simpl in Hfst. subst k'.
    now apply (Hall k e), In_Map_get. }
  apply submseteq_length in Hsub.
  change (length criticalKeys) with 3%nat in Hsub. lia.
Qed.

(** [cleanup] drops the memory tier only.  For every manager the timer
    is stopped, the memory cache is empty, the storage is as it was, a
    tick of the cleared interval does nothing and a second [cleanup]
    changes nothing; and every key whose stored record is readable and
    unexpired is still served: [get] returns its value and puts it back
    into the memory cache. *)
Theorem cleanup_drops_the_memory_tier_only (mg : Manager T) :
  let m1 := cleanup mg in
  cleanupInterval m1 = false /\
  memoryCache (mgr_world m1) = [] /\
  storage (mgr_world m1) = storage (mgr_world mg) /\
  (forall env', interval_tick env' m1 = m1) /\
  cleanup m1 = m1 /\
  (forall env key se,
     read_storage env key (mgr_world mg) = Some se ->
     isExpired env se = false ->
     get env key (mgr_world m1) =
       (Ok (Some (data se)), mkWorld [(key, se)] (storage (mgr_world mg)))).
Proof.
  intros m1. subst m1. unfold cleanup, stopCleanupService, interval_tick.
  destruct mg as [[m st] timer]. simpl.
  destruct timer; simpl; repeat split;
    intros env key se Hr He;
    now rewrite (get_promote env key se (mkWorld [] st)).
Qed.

End StartAndStop.

Section ValidatorTheorems.

Context {Baseline Metrics Improvements : Type}.

Lemma hours_bounds (u : Z) :
  (u / (1000 * 60 * 60) <? 1) = (u <? 3600000) /\
  (u / (1000 * 60 * 60) <? 24) = (u <? 86400000) /\
  (u / (1000 * 60 * 60) <? 168) = (u <? 604800000).
Proof.
  change (1000 * 60 * 60) with 3600000.
  pose proof (Z.div_mod u 3600000 ltac:(lia)) as Hdm.
  pose proof (Z.mod_pos_bound u 3600000 ltac:(lia)) as Hmod.
  repeat split;
    match goal with
    | |- (?a <? ?b) = (?c <? ?d) =>
        destruct (Z.ltb_spec a b), (Z.ltb_spec c d); try reflexivity; lia
    end.
Qed.

(** The status is decided by the uptime in milliseconds: below one hour
    (also when the clock is behind the start) [Initializing], from one
    hour [Stabilizing], from 24 hours [Monitoring], from 168 hours
    [Production Ready]. *)
Theorem health_check_thresholds (start now_ : Z) :
  let u := now_ - start in
  (getHealthCheckStatus start now_ = Initializing <-> u < 3600000) /\
  (getHealthCheckStatus start now_ = Stabilizing <->
     3600000 <= u < 86400000) /\
  (getHealthCheckStatus start now_ = Monitoring <->
     86400000 <= u < 604800000) /\
  (getHealthCheckStatus start now_ = ProductionReady <-> 604800000 <= u).
Proof.
  intros u. unfold getHealthCheckStatus. fold u.
  destruct (hours_bounds u) as (-> & -> & ->).
  destruct (Z.ltb_spec u 3600000), (Z.ltb_spec u 86400000),
    (Z.ltb_spec u 604800000);
    repeat split; intros; try discriminate; try reflexivity; lia.
Qed.

(** [isProductionReady] is true exactly from seven days of uptime on,
    whatever baseline and metrics the validator holds. *)
Theorem isProductionReady_iff_seven_days
        (calculateImprovements : Baseline -> Metrics -> Improvements)
        (v : Validator Baseline Metrics) (now_ : Z) :
  isProductionReady calculateImprovements v now_ = true <->
  604800000 <= now_ - validationStartTime v.
Proof.
  unfold isProductionReady, getPerformanceReport. simpl.
  destruct (health_check_thresholds (validationStartTime v) now_)
    as (_ & _ & _ & Hp). simpl in Hp.
  rewrite <- Hp.
  destruct (getHealthCheckStatus (validationStartTime v) now_);
    simpl; split; intros; congruence.
Qed.

End ValidatorTheorems.

Section CapacityOfSet.

Context {T : Type} (json_data : T -> option T).

(** A [set] into a memory cache that holds at most 50 entries leaves at
    most 50: the cache is at most one entry above capacity right after
    the insertion, and the eviction then brings it down to 41.  Below 50
    entries the [set] evicts nothing. *)
Theorem set_within_capacity env key (d : T) cc (w : World T) :
  Map_wf (memoryCache w) ->
  memorySize w <= maxMemoryCacheSize ->
  let inserted := Map_set key (new_entry env key d cc) (memoryCache w) in
  let w1 := snd (set json_data env key d cc w) in
  Map_size inserted <= maxMemoryCacheSize + 1 /\
  memorySize w1 <= maxMemoryCacheSize /\
  (Map_size inserted = maxMemoryCacheSize + 1 -> memorySize w1 = 41) /\
  (memorySize w < maxMemoryCacheSize -> memoryCache w1 = inserted).
Proof.
  intros Hwf Hsize inserted w1. subst w1. rewrite set_eq. unfold memorySize in *.
  simpl.
  destruct (set_keeps_capacity env key d cc (memoryCache w) Hwf Hsize) as [H1 H2].
  fold inserted in H1.
  split; [exact H1|]. split; [exact H2|].
  unfold memory_after_set. fold inserted.
  split.
  - intros Heq.
    destruct (Z.ltb_spec maxMemoryCacheSize (Map_size inserted)); [|lia].
    unfold Map_size in *. rewrite evicted_length by now apply Map_set_wf.
    fold inserted. rewrite toRemove_eq. unfold maxMemoryCacheSize in *. lia.
  - intros Hlt.
    assert (Hins : Map_size inserted <= Map_size (memoryCache w) + 1).
    { unfold Map_size, inserted. rewrite Map_set_length.
      destruct (Map_get key (memoryCache w)); lia. }
    destruct (Z.ltb_spec maxMemoryCacheSize (Map_size inserted)); [lia|].
    reflexivity.
Qed.

End CapacityOfSet.

(** ** The further properties on concrete runs *)

Lemma Forall_not_get_by_check {T} (calls : list (Env * Call T)) :
  forallb (fun ec => negb (is_get (snd ec))) calls = true ->
  Forall (fun ec => is_get (snd ec) = false) calls.
Proof.
  intros H. apply Forall_forall. intros ec Hec%list_elem_of_In.
  rewrite forallb_forall in H. now apply negb_true_iff, H.
Qed.

Lemma ties_by_check {T} (s0 : Z) (m : list (string * CacheEntry T)) :
  forallb (fun p => match score (snd p) with
                    | Some x => x =? s0
                    | None => false
                    end) m = true ->
  forall p q, In p m -> In q m -> score (snd p) = score (snd q).
Proof.
  intros H. rewrite forallb_forall in H. intros p q Hp Hq.
  pose proof (H p Hp) as H1. pose proof (H q Hq) as H2.
  destruct (score (snd p)) as [x|], (score (snd q)) as [y|]; try discriminate.
  apply Z.eqb_eq in H1, H2. congruence.
Qed.

Lemma remove_then_get_misses_witness :
  fst (remove (ms 1) "userProfile" with_profile) = Ok tt /\
  get (always_failing 5) "userProfile"
      (snd (remove (ms 1) "userProfile" with_profile)) =
  (Ok None, snd (remove (ms 1) "userProfile" with_profile)).
Proof.
  destruct (remove_then_get_misses (ms 1) (always_failing 5) "userProfile"
              with_profile eq_refl) as (H1 & _ & _ & H4).
  split; [exact H1 | exact H4].
Defined.

Lemma remove_rejected_keeps_stored_record_witness :
  fst (remove (removeItem_fails 1) "userProfile" with_profile) =
    Rejected (StorageError OpRemoveItem) /\
  Map_get "userProfile" (memoryCache profile_in_storage_only) = None /\
  fst (get (ms 2) "userProfile" profile_in_storage_only) = Ok (Some "v").
Proof.
  destruct (remove_rejected_keeps_stored_record (removeItem_fails 1) (ms 2)
              "userProfile"
              (mkEntry "v" 0 (JNum 86400000) (Some p_high) (Some t_critical))
              with_profile eq_refl eq_refl eq_refl) as (H1 & H2 & _ & H4 & _).
  split; [exact H1|]. split; [exact H2 | exact H4].
Defined.

Lemma remove_absent_is_noop_witness :
  remove (ms 1) "ghost" with_profile = (Ok tt, with_profile) /\
  remove (ms 2) "userProfile" (snd (remove (ms 1) "userProfile" with_profile)) =
  (Ok tt, snd (remove (ms 1) "userProfile" with_profile)).
Proof.
  destruct (remove_absent_is_noop (ms 1) (ms 2) "ghost" with_profile
              eq_refl eq_refl) as (H1 & _).
  destruct (remove_absent_is_noop (ms 1) (ms 2) "userProfile" with_profile
              eq_refl eq_refl) as (_ & H2).
  split; [apply H1; reflexivity | exact H2].
Defined.

Lemma remove_touches_one_key_witness :
  Map_get "notifications"
          (memoryCache (snd (remove (ms 1) "userProfile" mixed_ages))) =
    Map_get "notifications" (memoryCache mixed_ages) /\
  storage (snd (remove (ms 1) "userProfile" mixed_ages))
    !! "gynaid_cache_notifications" =
    storage mixed_ages !! "gynaid_cache_notifications".
Proof.
  destruct (remove_touches_one_key (ms 1) "userProfile" mixed_ages)
    as (H1 & _ & H3).
  split; [apply H1; discriminate | apply (H3 "notifications"); discriminate].
Defined.

Lemma get_value_is_repeatable_witness :
  let w1 := snd (get (ms 2) "userProfile" profile_in_storage_only) in
  Map_get "userProfile" (memoryCache profile_in_storage_only) = None /\
  get (always_failing 2) "userProfile" w1 = (Ok (Some "v"), w1).
Proof.
  intros w1. split; [reflexivity|].
  destruct (get_value_is_repeatable (ms 2) (always_failing 2) "userProfile"
              "v" profile_in_storage_only w1 eq_refl eq_refl) as (_ & H).
  exact H.
Defined.

Lemma get_miss_is_stable_witness :
  let w1 := snd (get (ms 86400001) "userProfile" with_profile) in
  Map_get "userProfile" (memoryCache with_profile) <> None /\
  Map_get "userProfile" (memoryCache w1) = None /\
  get (ms 86400001) "userProfile" w1 = (Ok None, w1).
Proof.
  intros w1. split; [vm_compute; discriminate|].
  exact (get_miss_is_stable (ms 86400001) "userProfile" with_profile eq_refl).
Defined.

Lemma get_rejection_is_removeItem_witness :
  fst (get (always_failing 86400001) "userProfile" with_profile) =
    Rejected (StorageError OpRemoveItem) /\
  memoryCache (snd (get (always_failing 86400001) "userProfile" with_profile)) =
    Map_delete "userProfile" (memoryCache with_profile) /\
  storage (snd (get (always_failing 86400001) "userProfile" with_profile)) =
    storage with_profile.
Proof.
  destruct (get_rejection_is_removeItem (always_failing 86400001)
              "userProfile" with_profile (StorageError OpRemoveItem) eq_refl)
    as (_ & _ & H3 & H4).
  split; [reflexivity|]. split; [exact H3 | exact H4].
Defined.

Lemma set_touches_one_key_witness :
  let w1 := snd (set json_text (ms 1) "notifications" "n" None with_profile) in
  storage w1 !! "gynaid_cache_userProfile" =
    storage with_profile !! "gynaid_cache_userProfile" /\
  Map_get "userProfile" (memoryCache w1) =
    Map_get "userProfile" (memoryCache with_profile).
Proof.
  destruct (set_touches_one_key json_text (ms 1) "notifications" "n" None
              with_profile) as (H1 & _ & _ & H4).
  split.
  - apply H1. discriminate.
  - apply H4; [vm_compute; discriminate | discriminate].
Defined.

Lemma set_then_get_with_override_witness :
  let w1 := snd (set json_text (ms 0) "userProfile" "v"
                     (override 1000 p_low t_non_critical) empty_world) in
  let w2 := snd (set json_text (ms 0) "userProfile" "v"
                     (Some (mkPartial Undefined Absent Absent)) empty_world) in
  fst (get (ms 1000) "userProfile" w1) = Ok (Some "v") /\
  fst (get (ms 1001) "userProfile" w1) = Ok None /\
  get (ms 946080000000) "userProfile" w2 = (Ok (Some "v"), w2).
Proof.
  intros w1 w2.
  pose proof (fun t => set_then_get_with_override json_text (ms 0) (ms t)
                "userProfile" (override 1000 p_low t_non_critical) "v"
                empty_world eq_refl eq_refl eq_refl eq_refl) as H.
  destruct (set_then_get_with_override json_text (ms 0) (ms 1)
              "userProfile" (Some (mkPartial Undefined Absent Absent)) "v"
              empty_world eq_refl eq_refl eq_refl eq_refl) as (_ & _ & H3).
  split; [|split].
  - destruct (H 1000) as (H1 & _).
    apply (H1 (mkPartial (Present 1000) (Present p_low) (Present t_non_critical))
              1000 eq_refl eq_refl).
    simpl. lia.
  - destruct (H 1001) as (H1 & _).
    apply (H1 (mkPartial (Present 1000) (Present p_low) (Present t_non_critical))
              1000 eq_refl eq_refl).
    simpl. lia.
  - destruct (H3 (mkPartial Undefined Absent Absent) eq_refl eq_refl)
      as (_ & _ & H4).
    apply H4. reflexivity.
Defined.

Lemma policy_entry_is_born_fresh_witness :
  isExpired (ms 77) (new_entry (ms 77) "healthTips" "tip" None) = false /\
  exists s, score (new_entry (ms 77) "healthTips" "tip" None) = Some s /\
            (s = 0 \/ s = 2 \/ s = 4).
Proof.
  destruct (policy_entry_is_born_fresh (ms 77) "healthTips"
              (mkConfig (6 * 60 * 60 * 1000) p_normal t_normal) "tip" eq_refl)
    as (_ & _ & H3 & H4).
  split; [exact H3 | exact H4].
Defined.

Lemma stored_copy_without_policy_reads_expired_witness :
  let w1 := snd (set json_text (ms 0) "labResults" "v" None empty_world) in
  let restarted := mkWorld [] (storage w1) in
  fst (get (ms 946080000000) "labResults" w1) = Ok (Some "v") /\
  get (ms 1) "labResults" restarted =
    (Ok None, mkWorld [] (delete "gynaid_cache_labResults" (storage w1))).
Proof.
  intros w1 restarted. split; [reflexivity|].
  destruct (stored_copy_without_policy_reads_expired json_text (ms 0) (ms 1)
              "labResults" "v" empty_world eq_refl eq_refl eq_refl)
    as (_ & H2).
  apply (H2 restarted); reflexivity.
Defined.

Lemma clear_then_every_get_misses_witness :
  let w := construct (ms 5) left_over in
  fst (get (ms 5) "userProfile" w) = Ok (Some "profile") /\
  get (ms 5) "userProfile" (snd (clear (ms 6) w)) =
    (Ok None, snd (clear (ms 6) w)).
Proof.
  intros w. split; [reflexivity|].
  exact (clear_then_every_get_misses (ms 6) (ms 5) "userProfile" w eq_refl).
Defined.

Lemma clear_rejects_iff_storage_call_fails_witness :
  fst (clear (always_failing 6) with_profile) <> Ok tt /\
  memoryCache (snd (clear (always_failing 6) with_profile)) = [] /\
  fst (get (ms 7) "userProfile" (snd (clear (always_failing 6) with_profile))) =
    Ok (Some "v").
Proof.
  assert (H0 : fst (clear (always_failing 6) with_profile) <> Ok tt)
    by (vm_compute; discriminate).
  destruct (clear_rejects_iff_storage_call_fails (always_failing 6) with_profile)
    as (_ & H2).
  destruct (H2 H0) as (H3 & _ & H5).
  split; [exact H0|]. split; [exact H3|].
  exact (H5 (ms 7) "userProfile"
            (mkEntry "v" 0 (JNum 86400000) (Some p_high) (Some t_critical))
            eq_refl eq_refl).
Defined.

Lemma performCleanup_removes_exactly_expired_witness :
  let w1 := snd (performCleanup (ms 7200000) mixed_ages) in
  map fst (memoryCache mixed_ages) = ["notifications"; "userProfile"] /\
  map fst (memoryCache w1) = ["userProfile"] /\
  storage w1 !! "gynaid_cache_notifications" = None /\
  storage w1 !! "gynaid_cache_userProfile" =
    storage mixed_ages !! "gynaid_cache_userProfile".
Proof.
  intros w1.
  assert (Hwf : Map_wf (memoryCache mixed_ages)).
  { apply NoDup_by_decision. vm_compute. reflexivity. }
  destruct (performCleanup_removes_exactly_expired (ms 7200000) mixed_ages
              eq_refl Hwf) as (_ & H2 & H3 & H4 & _).
  split; [reflexivity|]. split; [|split].
  - unfold w1. rewrite H2. reflexivity.
  - apply (H3 "notifications"
              (mkEntry "n" 0 (JNum 1800000) (Some p_low) (Some t_non_critical)));
      reflexivity.
  - apply (H4 "userProfile"). intros e He. vm_compute in He.
    injection He as <-. reflexivity.
Defined.

Lemma performCleanup_stops_at_first_failure_witness :
  performCleanup (removeItem_fails 7200000) mixed_ages =
    (Rejected (StorageError OpRemoveItem),
     mkWorld (Map_delete "notifications" (memoryCache mixed_ages))
             (storage mixed_ages)) /\
  performCleanup (always_failing 5) mixed_ages = (Ok tt, mixed_ages).
Proof.
  destruct (performCleanup_stops_at_first_failure (removeItem_fails 7200000)
              mixed_ages) as (_ & H2).
  destruct (performCleanup_stops_at_first_failure (always_failing 5)
              mixed_ages) as (H1 & _).
  split.
  - apply (H2 eq_refl "notifications"
              (mkEntry "n" 0 (JNum 1800000) (Some p_low) (Some t_non_critical))
              []).
    reflexivity.
  - apply H1. reflexivity.
Defined.

Lemma performCleanup_twice_witness :
  performCleanup (always_failing 7200000)
                 (snd (performCleanup (ms 7200000) mixed_ages)) =
  (Ok tt, snd (performCleanup (ms 7200000) mixed_ages)).
Proof.
  apply performCleanup_twice; [reflexivity | | reflexivity].
  apply NoDup_by_decision. vm_compute. reflexivity.
Defined.

Lemma eviction_breaks_ties_by_insertion_order_witness :
  map fst (victims (memoryCache twelve_plain)) =
    ["k00"; "k01"; "k02"; "k03"; "k04"; "k05"; "k06"; "k07"; "k08"; "k09"] /\
  map fst (evicted (memoryCache twelve_plain)) = ["k10"; "k11"].
Proof.
  assert (Hwf : Map_wf (memoryCache twelve_plain)).
  { apply NoDup_by_decision. vm_compute. reflexivity. }
  assert (Hties : forall p q, In p (memoryCache twelve_plain) ->
                              In q (memoryCache twelve_plain) ->
                              score (snd p) = score (snd q)).
  { apply (ties_by_check 2). vm_compute. reflexivity. }
  destruct (eviction_breaks_ties_by_insertion_order (memoryCache twelve_plain)
              Hwf (or_intror Hties)) as (H1 & H2).
  rewrite H1, H2. split; reflexivity.
Defined.

Lemma construct_holds_only_critical_records_witness :
  let w := construct (ms 1000) left_over in
  storage w = left_over /\
  memorySize w <= 3 /\
  exists e0, left_over !! "gynaid_cache_userProfile" = Some (Json e0) /\
             mkEntry "profile" 0 (JNum 10) (Some p_high) (Some t_critical) =
             as_critical e0.
Proof.
  intros w.
  destruct (construct_holds_only_critical_records (ms 1000) left_over)
    as (H1 & _ & H3 & H4).
  split; [exact H1|]. split; [exact H3|].
  destruct (H4 "userProfile"
               (mkEntry "profile" 0 (JNum 10) (Some p_high) (Some t_critical))
               eq_refl) as (_ & _ & _ & H5).
  exact H5.
Defined.

Lemma cleanup_drops_the_memory_tier_only_witness :
  let m1 := cleanup (mkManager with_profile true) in
  cleanupInterval m1 = false /\
  memoryCache (mgr_world m1) = [] /\
  interval_tick (ms 86400001) m1 = m1 /\
  fst (get (ms 5) "userProfile" (mgr_world m1)) = Ok (Some "v").
Proof.
  intros m1.
  destruct (cleanup_drops_the_memory_tier_only (mkManager with_profile true))
    as (H1 & H2 & _ & H4 & _ & H6).
  split; [exact H1|]. split; [exact H2|]. split; [exact (H4 _)|].
  unfold m1.
  now rewrite (H6 (ms 5) "userProfile"
                  (mkEntry "v" 0 (JNum 86400000) (Some p_high) (Some t_critical))
                  eq_refl eq_refl).
Defined.

Lemma run_capacity_without_get_witness :
  memorySize (run json_text (sets 0 60 plain) empty_world)
  <= maxMemoryCacheSize.
Proof.
  apply run_capacity_without_get.
  - apply Forall_not_get_by_check. vm_compute. reflexivity.
  - constructor.
  - vm_compute. discriminate.
Defined.

Lemma set_within_capacity_witness :
  memorySize after_60_sets = maxMemoryCacheSize /\
  memorySize (snd (set json_text (ms 6) "k60" "v" plain after_60_sets)) = 41.
Proof.
  split; [vm_compute; reflexivity|].
  assert (Hwf : Map_wf (memoryCache after_60_sets)).
  { apply NoDup_by_decision. vm_compute. reflexivity. }
  assert (Hsize : memorySize after_60_sets <= maxMemoryCacheSize).
  { vm_compute. discriminate. }
  destruct (set_within_capacity json_text (ms 6) "k60" "v" plain after_60_sets
              Hwf Hsize) as (_ & _ & H3 & _).
  apply H3. vm_compute. reflexivity.
Defined.
